(** * Unified log parser: a shallow embedding of
    [bot/parsers/unified_log_parser.py] and the properties of its
    specification.

    Conventions of the embedding.
    - Python [str] is [string] over 7-bit ASCII: the log lines the
      patterns accept and the mission ids they capture are ASCII.
    - Python [int] is [Z]; [len] is a [nat].
    - Every [dict] of the parser object is a [gmap] with [string] keys.
    - The mutable parser object, the persistence collaborator and the
      clock are threaded explicitly as one record ([World]).
    - Only error-level [logger] calls that a property speaks about are
      kept (in the effect trace); info and debug calls have no effect
      on the parser state and are left out. *)

From Stdlib Require Import ZArith Ascii String List Lia Bool.
From stdpp Require Import gmap strings list fin_maps pretty.

Local Open Scope string_scope.
Local Open Scope Z_scope.
Local Open Scope list_scope.

(** ** Python string primitives *)

Module PyStr.

(** [s.startswith(p)] *)
Fixpoint startswith (p s : string) : bool :=
  match p, s with
  | EmptyString, _ => true
  | String a p', String b s' => if Ascii.eqb a b then startswith p' s' else false
  | String _ _, EmptyString => false
  end.

(** [sub in s] *)
Fixpoint contains (sub s : string) : bool :=
  match s with
  | EmptyString => startswith sub EmptyString
  | String _ s' => if startswith sub s then true else contains sub s'
  end.

Definition is_upper (c : ascii) : bool :=
  let n := nat_of_ascii c in (Nat.leb 65 n && Nat.leb n 90)%bool.
Definition is_lower (c : ascii) : bool :=
  let n := nat_of_ascii c in (Nat.leb 97 n && Nat.leb n 122)%bool.
Definition is_digit (c : ascii) : bool :=
  let n := nat_of_ascii c in (Nat.leb 48 n && Nat.leb n 57)%bool.
Definition is_alpha (c : ascii) : bool := (is_upper c || is_lower c)%bool.

Definition lower_char (c : ascii) : ascii :=
  if is_upper c then ascii_of_nat (nat_of_ascii c + 32) else c.
Definition upper_char (c : ascii) : ascii :=
  if is_lower c then ascii_of_nat (nat_of_ascii c - 32) else c.

(** [s.lower()] *)
Fixpoint lower (s : string) : string :=
  match s with
  | EmptyString => EmptyString
  | String c s' => String (lower_char c) (lower s')
  end.

(** [s.capitalize()]: first character upper-cased, the rest lower-cased. *)
Definition capitalize (s : string) : string :=
  match s with
  | EmptyString => EmptyString
  | String c s' => String (upper_char c) (lower s')
  end.

Fixpoint all_chars (f : ascii -> bool) (s : string) : bool :=
  match s with
  | EmptyString => true
  | String c s' => (f c && all_chars f s')%bool
  end.

(** [s.isalpha()]: non-empty and alphabetic throughout. *)
Definition isalpha (s : string) : bool :=
  match s with
  | EmptyString => false
  | _ => all_chars is_alpha s
  end.

(** [s.split(sep)] for a one-character separator. *)
Fixpoint split (sep : ascii) (s : string) : list string :=
  match s with
  | EmptyString => [EmptyString]
  | String c s' =>
      if Ascii.eqb c sep then EmptyString :: split sep s'
      else match split sep s' with
           | h :: t => String c h :: t
           | [] => [String c EmptyString]
           end
  end.

(** [parts[-1]] of a list that [split] returned (never empty). *)
Definition last_part (parts : list string) : string := List.last parts EmptyString.

(** [s.replace(old, new)] for a non-empty [old]: occurrences are taken
    left to right without overlap; [skip] counts the characters of the
    current occurrence that remain to be dropped. *)
Fixpoint replace_go (old new : string) (skip : nat) (s : string) : string :=
  match s with
  | EmptyString => EmptyString
  | String c s' =>
      match skip with
      | S k => replace_go old new k s'
      | O =>
          if startswith old s
          then new +:+ replace_go old new (Nat.pred (String.length old)) s'
          else String c (replace_go old new 0 s')
      end
  end.
Definition replace (old new s : string) : string := replace_go old new 0 s.

(** [sep.join(parts)] *)
Fixpoint join (sep : string) (parts : list string) : string :=
  match parts with
  | [] => EmptyString
  | [p] => p
  | p :: rest => p +:+ sep +:+ join sep rest
  end.

(** [s.strip()] on ASCII white space. *)
Definition is_space (c : ascii) : bool :=
  let n := nat_of_ascii c in
  ((Nat.leb 9 n && Nat.leb n 13) || (Nat.leb 28 n && Nat.leb n 32))%bool.
Fixpoint lstrip (s : string) : string :=
  match s with
  | String c s' => if is_space c then lstrip s' else s
  | EmptyString => EmptyString
  end.
Fixpoint rstrip (s : string) : string :=
  match s with
  | EmptyString => EmptyString
  | String c s' =>
      match rstrip s' with
      | EmptyString => if is_space c then EmptyString else String c EmptyString
      | r => String c r
      end
  end.
Definition strip (s : string) : string := rstrip (lstrip s).

(** [s.splitlines()]: line boundaries are LF, CR, CRLF, VT, FF, FS, GS
    and RS; a boundary at the very end opens no further line. *)
Definition is_linebreak (c : ascii) : bool :=
  let n := nat_of_ascii c in
  ((Nat.leb 10 n && Nat.leb n 13) || (Nat.leb 28 n && Nat.leb n 30))%bool.
Definition is_cr (c : ascii) : bool := Nat.eqb (nat_of_ascii c) 13.
Definition is_lf (c : ascii) : bool := Nat.eqb (nat_of_ascii c) 10.

Fixpoint splitlines (s : string) : list string :=
  match s with
  | EmptyString => []
  | String c s' =>
      if is_linebreak c then
        match s' with
        | String d s'' =>
            if (is_cr c && is_lf d)%bool
            then match splitlines s' with
                 | _ :: t => EmptyString :: t
                 | [] => [EmptyString]
                 end
            else EmptyString :: splitlines s'
        | EmptyString => [EmptyString]
        end
      else match splitlines s' with
           | h :: t => String c h :: t
           | [] => [String c EmptyString]
           end
  end.

End PyStr.
Import PyStr.

(** ** Pattern catalog: mission normalisation and tiers *)

(** [_get_complete_mission_mappings]: the dict literal, in source order. *)
Definition mission_mappings : list (string * string) :=
  [ ("GA_Airport_mis_01_SFPSACMission", "Airport Mission #1");
    ("GA_Airport_mis_02_SFPSACMission", "Airport Mission #2");
    ("GA_Airport_mis_03_SFPSACMission", "Airport Mission #3");
    ("GA_Airport_mis_04_SFPSACMission", "Airport Mission #4");
    ("GA_Beregovoy_Mis1", "Beregovoy Settlement Mission");
    ("GA_Settle_05_ChernyLog_Mis1", "Cherny Log Settlement Mission");
    ("GA_Settle_09_Mis_1", "Settlement Mission #9");
    ("GA_Military_02_Mis1", "Military Base Mission #2");
    ("GA_Military_03_Mis_01", "Military Base Mission #3");
    ("GA_Military_04_Mis1", "Military Base Mission #4");
    ("GA_Military_04_Mis_2", "Military Base Mission #4B");
    ("GA_Ind_01_m1", "Industrial Zone Mission #1");
    ("GA_Ind_02_Mis_1", "Industrial Zone Mission #2");
    ("GA_PromZone_6_Mis_1", "Industrial Zone Mission #6");
    ("GA_PromZone_Mis_01", "Industrial Zone Mission A");
    ("GA_PromZone_Mis_02", "Industrial Zone Mission B");
    ("GA_KhimMash_Mis_01", "Chemical Plant Mission #1");
    ("GA_KhimMash_Mis_02", "Chemical Plant Mission #2");
    ("GA_Kamensk_Ind_3_Mis_1", "Kamensk Industrial Mission");
    ("GA_Kamensk_Mis_1", "Kamensk City Mission #1");
    ("GA_Kamensk_Mis_2", "Kamensk City Mission #2");
    ("GA_Kamensk_Mis_3", "Kamensk City Mission #3");
    ("GA_Krasnoe_Mis_1", "Krasnoe City Mission");
    ("GA_Vostok_Mis_1", "Vostok City Mission");
    ("GA_Bunker_01_Mis1", "Underground Bunker Mission");
    ("GA_Lighthouse_02_Mis1", "Lighthouse Mission #2");
    ("GA_Elevator_Mis_1", "Elevator Complex Mission #1");
    ("GA_Elevator_Mis_2", "Elevator Complex Mission #2");
    ("GA_Sawmill_01_Mis1", "Sawmill Mission #1");
    ("GA_Sawmill_02_1_Mis1", "Sawmill Mission #2A");
    ("GA_Sawmill_03_Mis_01", "Sawmill Mission #3");
    ("GA_Bochki_Mis_1", "Barrel Storage Mission");
    ("GA_Dubovoe_0_Mis_1", "Dubovoe Resource Mission") ].

(** [d[k]] guarded by [k in d] on the literal above (its keys are distinct). *)
Fixpoint dict_get (d : list (string * string)) (k : string) : option string :=
  match d with
  | [] => None
  | (k', v) :: d' => if String.eqb k k' then Some v else dict_get d' k
  end.

(** The [f"<Category> Mission ({mission_id.split('_')[-1]})"] fallbacks. *)
Definition keyword_fallback (category mission_id : string) : string :=
  category +:+ " Mission (" +:+ last_part (split "_" mission_id) +:+ ")".

Definition normalize_mission_name (mission_id : string) : string :=
  match dict_get mission_mappings mission_id with
  | Some name => name
  | None =>
      if contains "_Airport_" mission_id then keyword_fallback "Airport" mission_id
      else if contains "_Military_" mission_id then keyword_fallback "Military" mission_id
      else if contains "_Settle_" mission_id then keyword_fallback "Settlement" mission_id
      else if (contains "_Ind_" mission_id || contains "_PromZone_" mission_id)%bool
           then keyword_fallback "Industrial" mission_id
      else if contains "_KhimMash_" mission_id then keyword_fallback "Chemical Plant" mission_id
      else if contains "_Bunker_" mission_id then keyword_fallback "Bunker" mission_id
      else if contains "_Sawmill_" mission_id then keyword_fallback "Sawmill" mission_id
      else
        let parts :=
          split "_" (replace "_mis" "" (replace "_Mis" "" (replace "GA_" "" mission_id))) in
        let readable_parts := map capitalize (filter (fun p => isalpha p = true) parts) in
        match readable_parts with
        | _ :: _ => join " " readable_parts +:+ " Mission"
        | [] => "Special Mission (" +:+ mission_id +:+ ")"
        end
  end.

(** [any(keyword in mission_id.lower() for keyword in keywords)] *)
Definition any_keyword (keywords : list string) (mission_id : string) : bool :=
  existsb (fun keyword => contains keyword (lower mission_id)) keywords.

Definition tier5_keywords : list string := ["military"; "bunker"; "khimmash"].
Definition tier4_keywords : list string := ["airport"; "promzone"; "kamensk"].
Definition tier3_keywords : list string := ["ind_"; "industrial"].
Definition tier2_keywords : list string := ["sawmill"; "lighthouse"; "elevator"].

Definition get_mission_level (mission_id : string) : Z :=
  if any_keyword tier5_keywords mission_id then 5
  else if any_keyword tier4_keywords mission_id then 4
  else if any_keyword tier3_keywords mission_id then 3
  else if any_keyword tier2_keywords mission_id then 2
  else 1.

(** ** Regular expressions of the pattern catalog

    The patterns of [_compile_unified_patterns] use literals, character
    classes, greedy [*] and [+] over one class, capture groups that do
    not nest, and a leading [^].  A pattern is a flat list of items; the
    matcher backtracks over the greedy items (longest first), as
    Python's [re] does, and [search] takes the leftmost start. *)

Module Re.

Inductive item : Type :=
  | Lit (c : ascii)
  | Cls (cc : ascii -> bool)
  | Star (cc : ascii -> bool)
  | Plus (cc : ascii -> bool)
  | GOpen
  | GClose.

Record regex : Type := Regex {
  anchored : bool;      (* the pattern starts with ^ *)
  ignorecase : bool;    (* re.IGNORECASE *)
  items : list item
}.

Definition lit_match (ci : bool) (p c : ascii) : bool :=
  if ci then Ascii.eqb (lower_char p) (lower_char c) else Ascii.eqb p c.

Definition cls_match (ci : bool) (cc : ascii -> bool) (c : ascii) : bool :=
  if ci then (cc c || cc (lower_char c) || cc (upper_char c))%bool else cc c.

(** Greedy repetition of one class: consume as long as possible, give
    back one character at a time while the continuation [k] fails. *)
Fixpoint greedy {R : Type} (f : ascii -> bool) (k : string -> option R) (s : string)
  : option R :=
  match s with
  | String c s' =>
      if f c then
        match greedy f k s' with
        | Some r => Some r
        | None => k s
        end
      else k s
  | EmptyString => k EmptyString
  end.

(** [caps] holds the groups closed so far (latest first); an open group
    is held as the suffix of the subject at which it was opened. *)
Fixpoint match_here (ci : bool) (p : list item) (s : string) (caps : list string)
  {struct p} : option (list string) :=
  match p with
  | [] => Some (rev caps)
  | Lit a :: p' =>
      match s with
      | String c s' => if lit_match ci a c then match_here ci p' s' caps else None
      | EmptyString => None
      end
  | Cls cc :: p' =>
      match s with
      | String c s' => if cls_match ci cc c then match_here ci p' s' caps else None
      | EmptyString => None
      end
  | Star cc :: p' => greedy (cls_match ci cc) (fun s' => match_here ci p' s' caps) s
  | Plus cc :: p' =>
      match s with
      | String c s' =>
          if cls_match ci cc c
          then greedy (cls_match ci cc) (fun s'' => match_here ci p' s'' caps) s'
          else None
      | EmptyString => None
      end
  | GOpen :: p' => match_here ci p' s (s :: caps)
  | GClose :: p' =>
      match caps with
      | opened :: caps' =>
          match_here ci p' s
            (substring 0 (String.length opened - String.length s) opened :: caps')
      | [] => None
      end
  end.

Fixpoint search_from (ci : bool) (p : list item) (s : string) : option (list string) :=
  match match_here ci p s [] with
  | Some groups => Some groups
  | None =>
      match s with
      | String _ s' => search_from ci p s'
      | EmptyString => None
      end
  end.

(** [pattern.search(line)]: [Some groups] is a match object with
    [match.groups() = groups]. *)
Definition search (re : regex) (line : string) : option (list string) :=
  if anchored re then match_here (ignorecase re) (items re) line []
  else search_from (ignorecase re) (items re) line.

(** The number of groups of a pattern. *)
Fixpoint group_count (p : list item) : nat :=
  match p with
  | [] => 0%nat
  | GOpen :: p' => S (group_count p')
  | _ :: p' => group_count p'
  end.

(** Pattern syntax. *)
Definition lit (s : string) : list item := map Lit (list_ascii_of_string s).
Definition grp (p : list item) : list item := GOpen :: p ++ [GClose].
Definition digits (n : nat) : list item := repeat (Cls is_digit) n.
Definition dot (c : ascii) : bool := negb (is_lf c).
Definition word (c : ascii) : bool :=
  (is_alpha c || is_digit c || Ascii.eqb c "_")%bool.
Definition hex (c : ascii) : bool :=
  ((Nat.leb 97 (nat_of_ascii c) && Nat.leb (nat_of_ascii c) 102) || is_digit c)%bool.
Definition upper_or_underscore (c : ascii) : bool :=
  (is_upper c || Ascii.eqb c "_")%bool.
Definition not_amp_qmark (c : ascii) : bool :=
  negb (Ascii.eqb c "&" || Ascii.eqb c "?")%bool.

End Re.
Import Re.

(** [\d{4}\.\d{2}\.\d{2}-\d{2}\.\d{2}\.\d{2}] *)
Definition re_datetime : list item :=
  digits 4 ++ lit "." ++ digits 2 ++ lit "." ++ digits 2 ++ lit "-"
  ++ digits 2 ++ lit "." ++ digits 2 ++ lit "." ++ digits 2.

Definition re_mission_name : list item :=
  lit "LogSFPS: Mission " ++ grp (lit "GA_" ++ [Plus word]).

Definition re_log_rotation : regex :=
  Regex true false
    (lit "Log file open, "
     ++ grp (digits 2 ++ lit "/" ++ digits 2 ++ lit "/" ++ digits 2 ++ lit " "
             ++ digits 2 ++ lit ":" ++ digits 2 ++ lit ":" ++ digits 2)).
Definition re_server_startup : regex :=
  Regex false false
    (lit "LogWorld: Bringing World" ++ [Star dot] ++ lit "up for play"
     ++ [Star dot] ++ lit "at " ++ grp re_datetime).
Definition re_world_loaded : regex :=
  Regex false false
    (lit "LogLoad: Took " ++ [Star dot] ++ lit " seconds to LoadMap"
     ++ [Star dot] ++ lit "World_0").
Definition re_server_max_players : regex :=
  Regex false true (lit "playersmaxcount=" ++ grp [Plus is_digit]).
Definition re_player_queue_join : regex :=
  Regex false true
    (lit "LogNet: Join request: /Game/Maps/world_" ++ [Plus is_digit]
     ++ lit "/World_" ++ [Plus is_digit] ++ lit "?" ++ [Star dot]
     ++ lit "eosid=|" ++ grp [Plus hex] ++ [Star dot] ++ lit "Name="
     ++ grp [Plus not_amp_qmark]).
Definition re_player_beacon_join : regex :=
  Regex false true
    (lit "LogBeacon: Beacon Join SFPSOnlineBeaconClient EOS:|" ++ grp [Plus hex]).
Definition re_player_registered : regex :=
  Regex false true
    (lit "LogOnline: Warning: Player |" ++ grp [Plus hex]
     ++ lit " successfully registered!").
Definition re_player_disconnect : regex :=
  Regex false true
    (lit "UChannel::Close: Sending CloseBunch" ++ [Star dot]
     ++ lit "UniqueId: EOS:|" ++ grp [Plus hex]).
Definition re_player_cleanup : regex :=
  Regex false true
    (lit "UNetConnection::Close: Connection cleanup" ++ [Star dot]
     ++ lit "UniqueId: EOS:|" ++ grp [Plus hex]).
Definition re_mission_respawn : regex :=
  Regex false true
    (re_mission_name ++ lit " will respawn in " ++ grp [Plus is_digit]).
Definition re_mission_state_change : regex :=
  Regex false true
    (re_mission_name ++ lit " switched to " ++ grp [Plus upper_or_underscore]).
Definition re_mission_ready : regex :=
  Regex false true (re_mission_name ++ lit " switched to READY").
Definition re_mission_initial : regex :=
  Regex false true (re_mission_name ++ lit " switched to INITIAL").
Definition re_mission_in_progress : regex :=
  Regex false true (re_mission_name ++ lit " switched to IN_PROGRESS").
Definition re_mission_completed : regex :=
  Regex false true (re_mission_name ++ lit " switched to COMPLETED").
Definition re_vehicle_spawn : regex :=
  Regex false true
    (lit "LogSFPS: [ASFPSGameMode::NewVehicle_Add] Add vehicle "
     ++ grp (lit "BP_SFPSVehicle_" ++ [Plus word])).
Definition re_vehicle_delete : regex :=
  Regex false true
    (lit "LogSFPS: [ASFPSGameMode::NewVehicle_Del] Del vehicle "
     ++ grp (lit "BP_SFPSVehicle_" ++ [Plus word])).
Definition re_timestamp : regex :=
  Regex false false
    (lit "[" ++ grp (re_datetime ++ lit ":" ++ digits 3) ++ lit "]").

(** [_compile_unified_patterns]: the dict literal, in source order
    (Python dicts iterate in insertion order). *)
Definition patterns : list (string * regex) :=
  [ ("log_rotation", re_log_rotation);
    ("server_startup", re_server_startup);
    ("world_loaded", re_world_loaded);
    ("server_max_players", re_server_max_players);
    ("player_queue_join", re_player_queue_join);
    ("player_beacon_join", re_player_beacon_join);
    ("player_registered", re_player_registered);
    ("player_disconnect", re_player_disconnect);
    ("player_cleanup", re_player_cleanup);
    ("mission_respawn", re_mission_respawn);
    ("mission_state_change", re_mission_state_change);
    ("mission_ready", re_mission_ready);
    ("mission_initial", re_mission_initial);
    ("mission_in_progress", re_mission_in_progress);
    ("mission_completed", re_mission_completed);
    ("vehicle_spawn", re_vehicle_spawn);
    ("vehicle_delete", re_vehicle_delete);
    ("timestamp", re_timestamp) ].

(** [self.patterns[name]] for a name of the literal above. *)
Fixpoint pattern_get (ps : list (string * regex)) (name : string) : regex :=
  match ps with
  | [] => Regex false false []
  | (n, re) :: ps' => if String.eqb name n then re else pattern_get ps' name
  end.
Definition pattern (name : string) : regex := pattern_get patterns name.

(** ** Data model *)

(** [datetime.now(timezone.utc).isoformat()]: a time stamp is the
    ordinal of the clock reading that produced it; no property below
    compares time stamps. *)
Definition Timestamp : Type := nat.

(** A value of [file_states]. *)
Record FileState : Type := mkFileState {
  line_count : Z;
  last_updated : Timestamp
}.

Inductive Status : Type := online | offline.

(** A value of [player_sessions]. *)
Record Session : Type := mkSession {
  s_player_id : string;
  s_player_name : string;
  s_guild_id : string;
  s_joined_at : Timestamp;
  s_status : Status;
  s_left_at : option Timestamp
}.

(** A value of [player_lifecycle]. *)
Record Lifecycle : Type := mkLifecycle {
  lc_name : string;
  lc_queue_joined : Timestamp
}.

(** Modelled from the spec: [bot.utils.embed_factory] lies outside
    the parser module.  An embed is the record of the arguments the
    parser hands to [EmbedFactory.create_mission_embed] or
    [create_connection_embed] ("rendered ... into a presentation-ready
    record"); the factory returns it without failing and the result is
    truthy.  Titles are written without their leading emoji; the footer
    set by [set_footer] is the same for every embed of a kind. *)
Inductive Embed : Type :=
  | MissionEmbed (title description mission_id : string) (level : Z)
                 (state : string) (respawn_time : option Z) (color : Z)
  | ConnectionEmbed (title description player_name player_id : string) (color : Z).

(** A live transport session, by handle. *)
Definition Conn : Type := nat.

(** The [parser_state] document of the persistence collaborator. *)
Record StateDoc : Type := mkStateDoc {
  doc_file_states : gmap string FileState;
  doc_last_updated : Timestamp
}.

(** Where a safety report was raised: inside the pattern loop or after
    the line. *)
Inductive BreakSite : Type := InPatternLoop | AfterLine.

(** Observable steps, in program order. *)
Inductive Effect : Type :=
  | EFileStateWrite (server_key : string) (fs : FileState)
  | ESaveState
  | ELine (line_idx : nat) (line : string)
  | ESearch (pattern_name line : string)
  | EEmit (e : Embed)
  | ESafetyBreak (site : BreakSite) (processed_events nlines : nat)
  | EConnClose (conn_key : string) (c : Conn)
  | ESendLogEmbeds (embeds : list Embed).

(** The parser object with the collaborators it touches. *)
Record World : Type := mkWorld {
  last_log_position : gmap string Z;
  log_file_hashes : gmap string string;
  player_sessions : gmap string Session;
  server_status : gmap string (list (string * string));
  sftp_connections : gmap string Conn;
  file_states : gmap string FileState;
  player_lifecycle : gmap string Lifecycle;
  db_manager : option (option StateDoc);  (* [bot.db_manager], with the stored document *)
  clock : nat;                            (* clock readings taken so far *)
  trace : list Effect
}.

Definition set_player_sessions (m : gmap string Session) (w : World) : World :=
  mkWorld (last_log_position w) (log_file_hashes w) m (server_status w)
          (sftp_connections w) (file_states w) (player_lifecycle w)
          (db_manager w) (clock w) (trace w).
Definition set_sftp_connections (m : gmap string Conn) (w : World) : World :=
  mkWorld (last_log_position w) (log_file_hashes w) (player_sessions w) (server_status w)
          m (file_states w) (player_lifecycle w)
          (db_manager w) (clock w) (trace w).
Definition set_file_states (m : gmap string FileState) (w : World) : World :=
  mkWorld (last_log_position w) (log_file_hashes w) (player_sessions w) (server_status w)
          (sftp_connections w) m (player_lifecycle w)
          (db_manager w) (clock w) (trace w).
Definition set_player_lifecycle (m : gmap string Lifecycle) (w : World) : World :=
  mkWorld (last_log_position w) (log_file_hashes w) (player_sessions w) (server_status w)
          (sftp_connections w) (file_states w) m
          (db_manager w) (clock w) (trace w).
Definition set_db_manager (d : option (option StateDoc)) (w : World) : World :=
  mkWorld (last_log_position w) (log_file_hashes w) (player_sessions w) (server_status w)
          (sftp_connections w) (file_states w) (player_lifecycle w)
          d (clock w) (trace w).
Definition set_clock (n : nat) (w : World) : World :=
  mkWorld (last_log_position w) (log_file_hashes w) (player_sessions w) (server_status w)
          (sftp_connections w) (file_states w) (player_lifecycle w)
          (db_manager w) n (trace w).
Definition set_trace (t : list Effect) (w : World) : World :=
  mkWorld (last_log_position w) (log_file_hashes w) (player_sessions w) (server_status w)
          (sftp_connections w) (file_states w) (player_lifecycle w)
          (db_manager w) (clock w) t.

(** Record one step at the end of the trace. *)
Definition emit_effect (e : Effect) (w : World) : World := set_trace (trace w ++ [e]) w.

(** [datetime.now(timezone.utc).isoformat()] *)
Definition utcnow (w : World) : Timestamp * World := (clock w, set_clock (S (clock w)) w).

(** [f"{guild_id}_{x}"] *)
Definition scoped_key (guild_id x : string) : string := guild_id +:+ "_" +:+ x.

(** [__init__] before the persisted state is loaded. *)
Definition new_parser (db : option (option StateDoc)) : World :=
  mkWorld ∅ ∅ ∅ ∅ ∅ ∅ ∅ db 0%nat [].

(** ** Offset store *)

(** [_save_persistent_state]: the whole map replaces the stored
    document; without a database nothing is stored. *)
Definition _save_persistent_state (w : World) : World :=
  let w := emit_effect ESaveState w in
  match db_manager w with
  | Some _ =>
      let '(now, w) := utcnow w in
      set_db_manager (Some (Some (mkStateDoc (file_states w) now))) w
  | None => w
  end.

(** [_load_persistent_state] *)
Definition _load_persistent_state (w : World) : World :=
  let w := set_file_states ∅ w in
  match db_manager w with
  | Some (Some state_doc) => set_file_states (doc_file_states state_doc) w
  | _ => w
  end.

(** [stored_state.get('line_count', 0)] of [file_states.get(server_key, {})] *)
Definition last_processed_of (server_key : string) (w : World) : Z :=
  match file_states w !! server_key with
  | Some stored_state => line_count stored_state
  | None => 0
  end.

(** [self.file_states[server_key] = {'line_count': total_lines, 'last_updated': now}] *)
Definition write_file_state (server_key : string) (total_lines : nat) (w : World) : World :=
  let '(now, w) := utcnow w in
  let fs := mkFileState (Z.of_nat total_lines) now in
  emit_effect (EFileStateWrite server_key fs)
    (set_file_states (<[server_key := fs]> (file_states w)) w).

(** ** Event construction *)

(** [process_mission_event]; [respawn_time] is [None] when the argument
    is left out. *)
Definition process_mission_event (guild_id mission_id state : string)
    (respawn_time : option Z) : option Embed :=
  let normalized_name := normalize_mission_name mission_id in
  let mission_level := get_mission_level mission_id in
  let bold := "**" +:+ normalized_name +:+ "**" in
  if String.eqb state "READY" then
    Some (MissionEmbed "Mission Available"
            (bold +:+ " is now available for completion")
            mission_id mission_level "READY" None 65280)
  else if String.eqb state "IN_PROGRESS" then
    Some (MissionEmbed "Mission In Progress"
            (bold +:+ " is currently being completed")
            mission_id mission_level "IN_PROGRESS" None 16755200)
  else if String.eqb state "COMPLETED" then
    Some (MissionEmbed "Mission Completed"
            (bold +:+ " has been completed successfully")
            mission_id mission_level "COMPLETED" None 39423)
  else
    match respawn_time with
    | Some t =>
        if Z.eqb t 0 then
          Some (MissionEmbed "Mission Update" (bold +:+ " state: " +:+ state)
                  mission_id mission_level state None 6710886)
        else
          Some (MissionEmbed "Mission Respawning"
                  (bold +:+ " will respawn in " +:+ pretty t +:+ " seconds")
                  mission_id mission_level "RESPAWN" (Some t) 8947848)
    | None =>
        Some (MissionEmbed "Mission Update" (bold +:+ " state: " +:+ state)
                mission_id mission_level state None 6710886)
    end.

(** [process_player_connection]; [update_voice_channel] is a
    placeholder without effect. *)
Definition process_player_connection (guild_id player_id player_name event_type : string)
    (w : World) : option Embed * World :=
  let session_key := scoped_key guild_id player_id in
  if String.eqb event_type "joined" then
    let '(now, w) := utcnow w in
    let w := set_player_sessions
               (<[session_key := mkSession player_id player_name guild_id now online None]>
                  (player_sessions w)) w in
    (Some (ConnectionEmbed "Player Connected"
             ("**" +:+ player_name +:+ "** has joined the server")
             player_name player_id 65280), w)
  else if String.eqb event_type "disconnected" then
    let w :=
      match player_sessions w !! session_key with
      | Some sess =>
          let '(now, w) := utcnow w in
          set_player_sessions
            (<[session_key := mkSession (s_player_id sess) (s_player_name sess)
                                (s_guild_id sess) (s_joined_at sess) offline (Some now)]>
               (player_sessions w)) w
      | None => w
      end in
    (Some (ConnectionEmbed "Player Disconnected"
             ("**" +:+ player_name +:+ "** has left the server")
             player_name player_id 16711680), w)
  else (None, w).

(** ** Incremental line processor *)

(** The loop variables of [parse_log_content]: the parser object, the
    [embeds] list and the [processed_events] counter. *)
Record Acc : Type := mkAcc {
  acc_world : World;
  acc_embeds : list Embed;
  acc_events : nat
}.

Definition acc_effect (e : Effect) (a : Acc) : Acc :=
  mkAcc (emit_effect e (acc_world a)) (acc_embeds a) (acc_events a).

(** [embeds.append(embed); processed_events += 1] *)
Definition append_embed (e : Embed) (a : Acc) : Acc :=
  mkAcc (emit_effect (EEmit e) (acc_world a)) (acc_embeds a ++ [e]) (S (acc_events a)).

(** [if embed: ...] *)
Definition append_if (oe : option Embed) (a : Acc) : Acc :=
  match oe with
  | Some e => append_embed e a
  | None => a
  end.

(** [a, b = match.groups()]; every pattern unpacked this way has two
    groups ([search_two_groups] below), so the default is never taken. *)
Definition groups2 (groups : list string) : string * string :=
  match groups with
  | [a; b] => (a, b)
  | _ => (EmptyString, EmptyString)
  end.

(** [match.group(1)] *)
Definition group1 (groups : list string) : string :=
  match groups with
  | a :: _ => a
  | [] => EmptyString
  end.

(** [int(s)] on a string of decimal digits (what [\d+] captured). *)
Fixpoint int_go (acc : Z) (s : string) : Z :=
  match s with
  | EmptyString => acc
  | String c s' => int_go (10 * acc + (Z.of_nat (nat_of_ascii c) - 48)) s'
  end.
Definition int_of_digits (s : string) : Z := int_go 0 s.

(** [processed_events > len(lines) * 2] *)
Definition over_limit (nlines processed_events : nat) : bool :=
  (nlines * 2 <? processed_events)%nat.

(** How an iteration of a loop ends. *)
Inductive Flow : Type := Next | Break.

(** One iteration of [for pattern_name, pattern in self.patterns.items()]
    on a line ([continue] and the normal end both go on with the next
    pattern). *)
Definition mission_body (guild_id line : string) (nlines : nat)
    (pattern_name : string) (re : regex) (a : Acc) : Acc * Flow :=
  if startswith "mission_" pattern_name then
    let a := acc_effect (ESearch pattern_name line) a in
    match search re line with
    | Some groups =>
        let handled : option (option Embed) :=
          if String.eqb pattern_name "mission_respawn" then
            let '(mission_id, respawn_time) := groups2 groups in
            Some (process_mission_event guild_id mission_id "RESPAWN"
                    (Some (int_of_digits respawn_time)))
          else if String.eqb pattern_name "mission_state_change" then
            let '(mission_id, state) := groups2 groups in
            Some (process_mission_event guild_id mission_id state None)
          else None in
        match handled with
        | None => (a, Next)      (* continue *)
        | Some embed =>
            let a := append_if embed a in
            if over_limit nlines (acc_events a)
            then (acc_effect (ESafetyBreak InPatternLoop (acc_events a) nlines) a, Break)
            else (a, Next)
        end
    | None => (a, Next)
    end
  else (a, Next).

(** The pattern loop of one line, over the patterns not yet visited;
    [break] leaves this loop only. *)
Fixpoint mission_loop (guild_id line : string) (nlines : nat)
    (ps : list (string * regex)) (a : Acc) : Acc :=
  match ps with
  | [] => a
  | (pattern_name, re) :: ps' =>
      match mission_body guild_id line nlines pattern_name re a with
      | (a, Break) => a
      | (a, Next) => mission_loop guild_id line nlines ps' a
      end
  end.

(** The connection-queue line: remember the display name. *)
Definition queue_join_step (guild_id line : string) (a : Acc) : Acc :=
  let a := acc_effect (ESearch "player_queue_join" line) a in
  match search (pattern "player_queue_join") line with
  | Some groups =>
      let '(player_id, player_name) := groups2 groups in
      let player_key := scoped_key guild_id player_id in
      let '(now, w) := utcnow (acc_world a) in
      mkAcc (set_player_lifecycle
               (<[player_key := mkLifecycle player_name now]> (player_lifecycle w)) w)
            (acc_embeds a) (acc_events a)
  | None => a
  end.

Definition unknown_player : string := "Unknown Player".

(** The registration line: a "joined" event under the remembered name. *)
Definition registered_step (guild_id line : string) (a : Acc) : Acc :=
  let a := acc_effect (ESearch "player_registered" line) a in
  match search (pattern "player_registered") line with
  | Some groups =>
      let player_id := group1 groups in
      let player_key := scoped_key guild_id player_id in
      let player_name :=
        match player_lifecycle (acc_world a) !! player_key with
        | Some lc => lc_name lc
        | None => unknown_player
        end in
      let '(embed, w) :=
        process_player_connection guild_id player_id player_name "joined" (acc_world a) in
      append_if embed (mkAcc w (acc_embeds a) (acc_events a))
  | None => a
  end.

(** The disconnect line: the name comes from the session, else from the
    lifecycle cache, else it is unknown. *)
Definition disconnect_step (guild_id line : string) (a : Acc) : Acc :=
  let a := acc_effect (ESearch "player_disconnect" line) a in
  match search (pattern "player_disconnect") line with
  | Some groups =>
      let player_id := group1 groups in
      let player_key := scoped_key guild_id player_id in
      let session_key := scoped_key guild_id player_id in
      let player_name :=
        match player_sessions (acc_world a) !! session_key with
        | Some sess => s_player_name sess
        | None =>
            match player_lifecycle (acc_world a) !! player_key with
            | Some lc => lc_name lc
            | None => unknown_player
            end
        end in
      let '(embed, w) :=
        process_player_connection guild_id player_id player_name "disconnected"
          (acc_world a) in
      append_if embed (mkAcc w (acc_embeds a) (acc_events a))
  | None => a
  end.

(** The body of the [try] for one line, up to the check after the line. *)
Definition process_line (guild_id : string) (nlines : nat) (line : string) (a : Acc) : Acc :=
  let a := mission_loop guild_id line nlines patterns a in
  let a := queue_join_step guild_id line a in
  let a := registered_step guild_id line a in
  disconnect_step guild_id line a.

(** [for line_idx, line in enumerate(lines)] over the lines not yet
    visited ([line_idx] is the index of the first of them), with the
    [break] of the check after each line. *)
Fixpoint process_lines (guild_id : string) (nlines : nat) (line_idx : nat)
    (lines : list string) (a : Acc) : Acc :=
  match lines with
  | [] => a
  | line :: rest =>
      let a := acc_effect (ELine line_idx line) a in
      let a := process_line guild_id nlines line a in
      if over_limit nlines (acc_events a)
      then acc_effect (ESafetyBreak AfterLine (acc_events a) nlines) a
      else process_lines guild_id nlines (S line_idx) rest a
  end.

(** From the file-state write to the [return embeds] at the end:
    [lines] is the slice to scan, [total_lines] the length of the whole
    content. *)
Definition extract (guild_id server_key : string) (total_lines : nat)
    (lines : list string) (w : World) : list Embed * World :=
  let w := write_file_state server_key total_lines w in
  let w := _save_persistent_state w in
  let a := process_lines guild_id (length lines) 0 lines (mkAcc w [] 0%nat) in
  (acc_embeds a, acc_world a).

Definition parse_log_content (content guild_id server_id : string) (w : World)
  : list Embed * World :=
  let lines := splitlines content in
  let total_lines := length lines in
  let server_key := scoped_key guild_id server_id in
  let last_processed := last_processed_of server_key w in
  if ((0 <? last_processed) && (last_processed <? Z.of_nat total_lines))%bool then
    extract guild_id server_key total_lines (drop (Z.to_nat last_processed) lines) w
  else if (Z.of_nat total_lines <=? last_processed) then
    ([], w)
  else
    extract guild_id server_key total_lines lines w.

(** The pattern loop of one cold-start line: the first mission pattern
    that matches counts the line and ends the loop. *)
Fixpoint cold_mission_loop (line : string) (ps : list (string * regex))
    (events_parsed : nat) (w : World) : nat * World :=
  match ps with
  | [] => (events_parsed, w)
  | (pattern_name, re) :: ps' =>
      if startswith "mission_" pattern_name then
        let w := emit_effect (ESearch pattern_name line) w in
        match search re line with
        | Some _ => (S events_parsed, w)
        | None => cold_mission_loop line ps' events_parsed w
        end
      else cold_mission_loop line ps' events_parsed w
  end.

Fixpoint cold_lines (lines : list string) (events_parsed : nat) (w : World) : nat * World :=
  match lines with
  | [] => (events_parsed, w)
  | line :: rest =>
      let '(events_parsed, w) := cold_mission_loop line patterns events_parsed w in
      cold_lines rest events_parsed w
  end.

(** [_process_cold_start]: [events_parsed] only feeds a log message. *)
Definition _process_cold_start (content guild_id server_id : string) (w : World) : World :=
  let lines := splitlines content in
  let total_lines := length lines in
  let '(events_parsed, w) := cold_lines lines 0%nat w in
  let server_key := scoped_key guild_id server_id in
  let w := write_file_state server_key total_lines w in
  _save_persistent_state w.

(** ** One fetch cycle of a server *)

(** A server descriptor of the configuration collaborator; a field is
    [None] when the document lacks it. *)
Record Server : Type := mkServer {
  srv_name : option string;
  srv_id : option string;
  srv_host : option string;
  srv_port : option Z;
  srv_username : option string;
  srv_password : option string;
  srv_log_path : option string
}.

(** What reading the remote file yields. *)
Inductive Fetch : Type :=
  | SftpFailure              (* the SFTP client could not be started *)
  | FileNotFound             (* [sftp.stat] raised FileNotFoundError *)
  | ReadFailure              (* any other error while reading *)
  | FileContent (content : string).

(** The remote side during one cycle. *)
Record Remote : Type := mkRemote {
  ssh_connect : string -> Z -> string -> string -> option Conn;
  sftp_fetch : Conn -> string -> Fetch
}.

(** Truth value of an optional string: present and not empty. *)
Definition truthy (o : option string) : bool :=
  match o with
  | Some (String _ _) => true
  | _ => false
  end.

(** [f"{o}"] *)
Definition fmt (o : option string) : string :=
  match o with
  | Some s => s
  | None => "None"
  end.

(** [parse_server_logs], from [if content:] on: the cold-versus-hot
    dispatch.  Embeds are handed to [send_log_embeds]; delivery is the
    notifier's side. *)
Definition dispatch_content (guild_id : Z) (server_id content : string) (w : World)
  : World :=
  match content with
  | EmptyString => w
  | _ =>
      let server_key := scoped_key (pretty guild_id) server_id in
      let last_processed := last_processed_of server_key w in
      let is_warm_start := 0 <? last_processed in
      if negb is_warm_start then
        _process_cold_start content (pretty guild_id) server_id w
      else
        let '(embeds, w) := parse_log_content content (pretty guild_id) server_id w in
        match embeds with
        | [] => w
        | _ => emit_effect (ESendLogEmbeds embeds) w
        end
  end.

Definition parse_server_logs (remote : Remote) (guild_id : Z) (server : Server)
    (w : World) : World :=
  let server_id := match srv_id server with Some i => i | None => "unknown" end in
  let host := srv_host server in
  let ssh_port := match srv_port server with Some p => p | None => 22 end in
  let ssh_user := srv_username server in
  let ssh_password := srv_password server in
  let log_path :=
    match srv_log_path server with
    | Some p => p
    | None => "./" +:+ fmt host +:+ "_" +:+ server_id +:+ "/Logs/Deadside.log"
    end in
  if negb (truthy host && truthy ssh_user && truthy ssh_password) then w
  else
    let connection_key :=
      pretty guild_id +:+ "_" +:+ server_id +:+ "_" +:+ fmt host +:+ "_" +:+ pretty ssh_port in
    if (String.length (strip (fmt host)) =? 0)%nat then w
    else
      let host := strip (fmt host) in
      let connected : option World :=
        match sftp_connections w !! connection_key with
        | Some _ => Some w
        | None =>
            match ssh_connect remote host ssh_port (fmt ssh_user) (fmt ssh_password) with
            | Some conn =>
                Some (set_sftp_connections (<[connection_key := conn]> (sftp_connections w)) w)
            | None => None
            end
        end in
      match connected with
      | None => w
      | Some w =>
          match sftp_connections w !! connection_key with
          | Some conn =>
              match sftp_fetch remote conn log_path with
              | FileContent content => dispatch_content guild_id server_id content w
              | _ => w
              end
          | None => w
          end
      end.

(** ** Tenant cleanup *)

(** [keys_to_remove = [k for k in d.keys() if k.startswith(prefix)]]
    followed by [del d[key]] for each of them. *)
Definition keys_with_prefix {V : Type} (prefix : string) (d : gmap string V) : list string :=
  filter (fun k => startswith prefix k = true) (map fst (map_to_list d)).

Definition delete_keys {V : Type} (keys : list string) (d : gmap string V) : gmap string V :=
  fold_left (fun d key => delete key d) keys d.

Definition remove_prefixed {V : Type} (prefix : string) (d : gmap string V) : gmap string V :=
  delete_keys (keys_with_prefix prefix d) d.

(** Closing and dropping the connections of [conn_keys], one by one. *)
Fixpoint close_connections (conn_keys : list string) (w : World) : World :=
  match conn_keys with
  | [] => w
  | conn_key :: rest =>
      let w :=
        match sftp_connections w !! conn_key with
        | Some c => emit_effect (EConnClose conn_key c) w
        | None => w
        end in
      close_connections rest
        (set_sftp_connections (delete conn_key (sftp_connections w)) w)
  end.

Definition cleanup_guild_state (guild_id : Z) (w : World) : World :=
  let guild_prefix := pretty guild_id +:+ "_" in
  let w :=
    mkWorld (remove_prefixed guild_prefix (last_log_position w))
            (remove_prefixed guild_prefix (log_file_hashes w))
            (remove_prefixed guild_prefix (player_sessions w))
            (remove_prefixed guild_prefix (server_status w))
            (sftp_connections w)
            (remove_prefixed guild_prefix (file_states w))
            (remove_prefixed guild_prefix (player_lifecycle w))
            (db_manager w) (clock w) (trace w) in
  close_connections (keys_with_prefix guild_prefix (sftp_connections w)) w.

(** ** Event router *)

(** A guild document of the configuration collaborator: the
    [server_channels] table (per server id, and under ["default"]) and
    the legacy [channels] table; a missing table is empty. *)
Record GuildConfig : Type := mkGuildConfig {
  server_channels : gmap string (gmap string Z);
  channels : gmap string Z
}.

(** [if channel_id:] for an optional channel id. *)
Definition channel_truthy (channel_id : option Z) : bool :=
  match channel_id with
  | Some c => negb (c =? 0)
  | None => false
  end.

(** [get_server_channel]; [get_guild] is [bot.db_manager.get_guild]
    ([None] when there is no database: the attribute error is caught
    and [None] returned). *)
Definition get_server_channel (get_guild : option (Z -> option GuildConfig))
    (guild_id : Z) (server_id channel_type : string) : option Z :=
  match get_guild with
  | None => None
  | Some lookup =>
      match lookup guild_id with
      | None => None
      | Some guild_config =>
          let server_specific :=
            match server_channels guild_config !! server_id with
            | Some table => table !! channel_type
            | None => None
            end in
          if channel_truthy server_specific then server_specific
          else
            let default :=
              match server_channels guild_config !! "default" with
              | Some table => table !! channel_type
              | None => None
              end in
            if channel_truthy default then default
            else channels guild_config !! channel_type
      end
  end.

(** ** Auxiliary notions of the statements *)

(** A string free of underscores (the decimal form of a tenant id). *)
Definition no_underscore (s : string) : Prop :=
  all_chars (fun c => negb (Ascii.eqb c "_")) s = true.

(** The channel-type entry of one table of [server_channels]. *)
Definition table_entry (guild_config : GuildConfig) (table channel_type : string)
  : option Z :=
  match server_channels guild_config !! table with
  | Some t => t !! channel_type
  | None => None
  end.

(** An entry counts as configured when it holds a channel id that is
    not zero (what [if channel_id:] accepts). *)
Definition configured (entry : option Z) : Prop :=
  exists c : Z, entry = Some c /\ c <> 0.

(** The embeds appended along a trace, in order. *)
Fixpoint emitted (t : list Effect) : list Embed :=
  match t with
  | [] => []
  | EEmit e :: t' => e :: emitted t'
  | _ :: t' => emitted t'
  end.

(** The steps that the body of the loop may take on [line]: searching
    that line, emitting, reporting a safety break. *)
Definition line_effect (line : string) (e : Effect) : Prop :=
  match e with
  | ESearch _ l => l = line
  | EEmit _ => True
  | ESafetyBreak _ _ _ => True
  | _ => False
  end.

(** The steps that event extraction over the lines [slice] may take:
    turning to the line at an index of the slice, searching a line of
    the slice, emitting, reporting a safety break. *)
Definition slice_effect (slice : list string) (e : Effect) : Prop :=
  match e with
  | ELine line_idx line => slice !! line_idx = Some line
  | ESearch _ line => line ∈ slice
  | EEmit _ => True
  | ESafetyBreak _ _ _ => True
  | _ => False
  end.

(** The part of the world that event extraction leaves alone. *)
Definition same_store (w w' : World) : Prop :=
  file_states w' = file_states w
  /\ db_manager w' = db_manager w
  /\ sftp_connections w' = sftp_connections w
  /\ last_log_position w' = last_log_position w
  /\ log_file_hashes w' = log_file_hashes w
  /\ server_status w' = server_status w.

(** [a'] continues [a] by steps that satisfy [P]: the trace grows by
    them, and the embeds and the counter grow by what they emit. *)
Definition acc_extends (P : Effect -> Prop) (a a' : Acc) : Prop :=
  exists ext : list Effect,
    trace (acc_world a') = (trace (acc_world a) ++ ext)%list
    /\ Forall P ext
    /\ acc_embeds a' = (acc_embeds a ++ emitted ext)%list
    /\ acc_events a' = (acc_events a + length (emitted ext))%nat
    /\ same_store (acc_world a) (acc_world a').

(** Whether the pattern [name] matches the line. *)
Definition matched (name line : string) : bool :=
  match search (pattern name) line with
  | Some _ => true
  | None => false
  end.

(** The patterns whose match makes [parse_log_content] emit a record. *)
Definition emitting_patterns : list string :=
  ["mission_respawn"; "mission_state_change"; "player_registered"; "player_disconnect"].

(** The number of events a line carries. *)
Definition event_count (line : string) : nat :=
  length (List.filter (fun name => matched name line) emitting_patterns).


(** Whether the loop turned to the line at index [line_idx] along the
    trace. *)
Definition scanned (line_idx : nat) (t : list Effect) : bool :=
  existsb (fun e => match e with
                    | ELine i _ => Nat.eqb i line_idx
                    | _ => false
                    end) t.

(** The safety reports of a trace. *)
Definition safety_reports (t : list Effect) : list Effect :=
  List.filter (fun e => match e with ESafetyBreak _ _ _ => true | _ => false end) t.

(** The steps that follow the first safety report of a trace. *)
Fixpoint after_first_break (t : list Effect) : list Effect :=
  match t with
  | [] => []
  | ESafetyBreak _ _ _ :: t' => t'
  | _ :: t' => after_first_break t'
  end.

(** The patterns of the catalog that follow [mission_state_change]:
    a match of theirs is skipped with [continue]. *)
Definition patterns_after_state_change : list (string * regex) :=
  [ ("mission_ready", re_mission_ready);
    ("mission_initial", re_mission_initial);
    ("mission_in_progress", re_mission_in_progress);
    ("mission_completed", re_mission_completed);
    ("vehicle_spawn", re_vehicle_spawn);
    ("vehicle_delete", re_vehicle_delete);
    ("timestamp", re_timestamp) ].

(** 1 for a match, 0 otherwise. *)
Definition hit (name line : string) : nat := if matched name line then 1%nat else 0%nat.

(** A pattern search on a line of [lines], and nothing else. *)
Definition search_effect (lines : list string) (e : Effect) : Prop :=
  match e with
  | ESearch _ line => line ∈ lines
  | _ => False
  end.

(** Sample data. *)
Definition sample_file_state : FileState := mkFileState 10 0%nat.

Definition two_tenants : World :=
  mkWorld ∅ ∅ ∅ ∅
    (<["12_s1_host_22" := 1%nat]> (<["123_s1_host_22" := 2%nat]> ∅))
    (<["12_s1" := sample_file_state]> (<["123_s1" := sample_file_state]> ∅))
    ∅ None 0%nat [].

Definition sample_config : GuildConfig :=
  mkGuildConfig
    (<["srv1" := <["events" := 111]> ∅]>
       (<["default" := <["events" := 222]> (<["connections" := 333]> ∅)]> ∅))
    (<["events" := 444]> (<["bounties" := 555]> ∅)).

Definition sample_guilds : option (Z -> option GuildConfig) :=
  Some (fun guild_id => if guild_id =? 7 then Some sample_config else None).

(** Sample log lines and parser states. *)
Definition LF : string := String "010" EmptyString.
Definition log_of (lines : list string) : string := join LF lines.

Definition line_old : string :=
  "[2025.06.01-12.00.00:000][  1]LogSFPS: Mission GA_Airport_mis_01_SFPSACMission switched to READY".
Definition line_ready : string :=
  "[2025.06.01-12.05.00:000][ 42]LogSFPS: Mission GA_Bunker_01_Mis1 switched to READY".
Definition line_queue : string :=
  "[2025.06.01-12.06.00:000][ 50]LogNet: Join request: /Game/Maps/world_0/World_0?logintype=eos?eosid=|0002abcdef?Name=Alice".
Definition line_registered : string :=
  "[2025.06.01-12.06.05:000][ 55]LogOnline: Warning: Player |0002abcdef successfully registered!".
Definition line_disconnect : string :=
  "[2025.06.01-12.30.00:000][ 90]UChannel::Close: Sending CloseBunch. ChIndex == 0. UniqueId: EOS:|0002abcdef".
(** One line that carries four events. *)
Definition line_four : string :=
  "LogSFPS: Mission GA_Bunker_01_Mis1 will respawn in 60 LogSFPS: Mission GA_Bunker_01_Mis1 switched to READY LogOnline: Warning: Player |0002abcdef successfully registered! UChannel::Close: Sending CloseBunch UniqueId: EOS:|0002abcdef".

(** A parser without database that has recorded [n] lines for server
    [s1] of tenant 1. *)
Definition tracking (n : Z) : World :=
  set_file_states (<["1_s1" := mkFileState n 0%nat]> ∅) (new_parser None).

(** The same with a database attached. *)
Definition tracking_db (n : Z) : World :=
  set_file_states (<["1_s1" := mkFileState n 0%nat]> ∅) (new_parser (Some None)).

(** A server descriptor and a remote side that serves [content] as
    its log. *)
Definition sample_server : Server :=
  mkServer (Some "EU1") (Some "s1") (Some "10.0.0.5") None (Some "user") (Some "pw") None.

Definition remote_with (content : string) : Remote :=
  mkRemote (fun _ _ _ _ => Some 7%nat)
           (fun _ path =>
              if String.eqb path "./10.0.0.5_s1/Logs/Deadside.log"
              then FileContent content else FileNotFound).

(** ** Further operations of the parser *)

(** [reset_file_states]: by server key, else by guild, else
    everything.  Both arguments are tested for truth, so an empty key
    and the guild id 0 count as not given.  The stored document is not
    touched. *)
Definition reset_file_states (server_key : option string) (guild_id : option Z)
    (w : World) : World :=
  if truthy server_key then
    set_file_states (delete (fmt server_key) (file_states w)) w
  else
    match guild_id with
    | Some g =>
        if negb (g =? 0)
        then set_file_states (remove_prefixed (pretty g +:+ "_") (file_states w)) w
        else set_file_states ∅ w
    | None => set_file_states ∅ w
    end.

(** [session.get('status') == 'online'] *)
Definition is_online (session : Session) : bool :=
  match s_status session with
  | online => true
  | offline => false
  end.

(** The dict that [get_guild_server_state] returns; a missing entry
    (the [{}] default) is [None]. *)
Record GuildServerState : Type := mkGuildServerState {
  gs_file_state : option FileState;
  gs_server_status : option (list (string * string));
  gs_active_players : list Session;
  gs_sftp_connected : bool
}.

Definition get_guild_server_state (guild_id : Z) (server_id : string) (w : World)
  : GuildServerState :=
  let server_key := scoped_key (pretty guild_id) server_id in
  mkGuildServerState
    (file_states w !! server_key)
    (server_status w !! server_key)
    (map snd
       (List.filter
          (fun kv => (startswith (pretty guild_id +:+ "_") (fst kv)
                      && is_online (snd kv))%bool)
          (map_to_list (player_sessions w))))
    (existsb (fun conn_key =>
                startswith (pretty guild_id +:+ "_" +:+ server_id +:+ "_") conn_key)
       (map fst (map_to_list (sftp_connections w)))).

(** The dict that [get_parser_status] returns. *)
Record ParserStatus : Type := mkParserStatus {
  ps_active_sessions : nat;
  ps_total_tracked_servers : nat;
  ps_sftp_connections : nat;
  ps_file_states : gmap string FileState;
  ps_connection_status : string
}.

Definition get_parser_status (w : World) : ParserStatus :=
  mkParserStatus
    (length (List.filter is_online (map snd (map_to_list (player_sessions w)))))
    (size (file_states w))
    (size (sftp_connections w))
    (file_states w)
    (if decide (sftp_connections w = ∅) then "no_connections" else "healthy").

(** The [channel_mapping] table of [send_log_embeds]. *)
Definition channel_mapping : list (string * string) :=
  [ ("mission_event", "events");
    ("airdrop_event", "events");
    ("helicrash_event", "events");
    ("trader_event", "events");
    ("vehicle_event", "events");
    ("player_connection", "connections");
    ("player_disconnection", "connections") ].

(** An element of [embeds_data]: a dict with the keys [type] and
    [embed] (either may be missing), or an embed object, which has no
    [get] method. *)
Inductive EmbedData : Type :=
  | DictData (embed_type : option string) (embed : option Embed)
  | EmbedObject (e : Embed).

(** The chat side during one call: whether [bot.get_channel] finds the
    channel, and whether [channel.send] goes through. *)
Record Discord : Type := mkDiscord {
  get_channel : Z -> bool;
  send_ok : Z -> Embed -> bool
}.

(** [send_log_embeds], as the list of deliveries made, in order.  An
    element that is no dict raises at [.get('type')]; the outer handler
    ends the call there.  A failure inside [channel.send(...)],
    a missing [embed] key included, is caught per element. *)
Fixpoint send_log_embeds (get_guild : option (Z -> option GuildConfig))
    (discord : Discord) (guild_id : Z) (server_id : string)
    (embeds_data : list EmbedData) : list (Z * Embed) :=
  match embeds_data with
  | [] => []
  | EmbedObject _ :: _ => []
  | DictData embed_type embed :: rest =>
      let continue :=
        send_log_embeds get_guild discord guild_id server_id rest in
      let channel_type :=
        match embed_type with
        | Some t => dict_get channel_mapping t
        | None => None
        end in
      match channel_type with
      | None => continue
      | Some channel_type =>
          let channel_id :=
            get_server_channel get_guild guild_id server_id channel_type in
          if channel_truthy channel_id then
            match channel_id with
            | Some cid =>
                if get_channel discord cid then
                  match embed with
                  | Some e =>
                      if send_ok discord cid e then (cid, e) :: continue else continue
                  | None => continue
                  end
                else continue
            | None => continue
            end
          else continue
      end
  end.

(** [_determine_channel_type] on [embed.title] ([None] or empty: no
    title). *)
Definition _determine_channel_type (title : option string) : option string :=
  match title with
  | None | Some EmptyString => None
  | Some t =>
      if any_keyword ["airdrop"; "crate"] t then Some "events"
      else if any_keyword ["mission"; "objective"] t then Some "events"
      else if any_keyword ["helicopter"; "heli"; "crash"] t then Some "events"
      else if any_keyword ["connect"; "disconnect"; "join"; "left"] t
           then Some "connections"
      else if any_keyword ["bounty"] t then Some "bounties"
      else Some "events"
  end.

(** The title of an embed. *)
Definition embed_title (e : Embed) : string :=
  match e with
  | MissionEmbed title _ _ _ _ _ _ => title
  | ConnectionEmbed title _ _ _ _ => title
  end.

(** A guild document: its id, and its servers ([servers] missing: none). *)
Record GuildDoc : Type := mkGuildDoc {
  gd_id : Z;
  gd_servers : list Server
}.

(** The [for server in servers] loop of [run_log_parser]. *)
Fixpoint parse_servers (remote : Remote) (guild_id : Z) (servers : list Server)
    (w : World) : World :=
  match servers with
  | [] => w
  | server :: rest =>
      parse_servers remote guild_id rest (parse_server_logs remote guild_id server w)
  end.

(** The [for guild_doc in guilds_list] loop. *)
Fixpoint parse_guilds (remote : Remote) (guilds_list : list GuildDoc) (w : World)
  : World :=
  match guilds_list with
  | [] => w
  | guild_doc :: rest =>
      parse_guilds remote rest
        (parse_servers remote (gd_id guild_doc) (gd_servers guild_doc) w)
  end.

(** [run_log_parser]: [guilds_list] is what [guilds.find({})] yields;
    without a database the run ends at once. *)
Definition run_log_parser (remote : Remote) (guilds_list : list GuildDoc) (w : World)
  : World :=
  match db_manager w with
  | None => w
  | Some _ => parse_guilds remote guilds_list w
  end.

(** ** Auxiliary notions of the further statements *)

(** The [server_id] that [parse_server_logs] derives from a descriptor. *)
Definition server_id_of (server : Server) : string :=
  match srv_id server with
  | Some i => i
  | None => "unknown"
  end.

(** The key under which [parse_server_logs] keeps the connection. *)
Definition connection_key_of (guild_id : Z) (server : Server) : string :=
  pretty guild_id +:+ "_" +:+ server_id_of server +:+ "_" +:+ fmt (srv_host server)
  +:+ "_" +:+ pretty (match srv_port server with Some p => p | None => 22 end).

(** The path from which [parse_server_logs] reads the log. *)
Definition log_path_of (server : Server) : string :=
  match srv_log_path server with
  | Some p => p
  | None =>
      "./" +:+ fmt (srv_host server) +:+ "_" +:+ server_id_of server
      +:+ "/Logs/Deadside.log"
  end.

(** The descriptor passes the checks made before connecting. *)
Definition usable (server : Server) : bool :=
  (truthy (srv_host server) && truthy (srv_username server)
   && truthy (srv_password server)
   && negb (String.length (strip (fmt (srv_host server))) =? 0)%nat)%bool.

(** What a cycle for tenant [g] leaves alone: the entries under keys
    that do not start with [f"{g}_"], and the three maps that no cycle
    writes. *)
Definition tenant_frame (g : string) (w w' : World) : Prop :=
  (forall k, startswith (g +:+ "_") k = false ->
     player_sessions w' !! k = player_sessions w !! k
     /\ player_lifecycle w' !! k = player_lifecycle w !! k
     /\ file_states w' !! k = file_states w !! k
     /\ sftp_connections w' !! k = sftp_connections w !! k)
  /\ last_log_position w' = last_log_position w
  /\ log_file_hashes w' = log_file_hashes w
  /\ server_status w' = server_status w.

(** Nothing recorded about players or connections is dropped. *)
Definition history_kept (w w' : World) : Prop :=
  forall k,
    (is_Some (player_sessions w !! k) -> is_Some (player_sessions w' !! k))
    /\ (is_Some (player_lifecycle w !! k) -> is_Some (player_lifecycle w' !! k))
    /\ (is_Some (sftp_connections w !! k) -> is_Some (sftp_connections w' !! k)).

(** The stored document, when there is one, holds the offsets of the
    parser. *)
Definition db_in_sync (w : World) : Prop :=
  match db_manager w with
  | Some (Some doc) => doc_file_states doc = file_states w
  | Some None => file_states w = ∅
  | None => True
  end.


(** The seven maps of the parser agree in two worlds. *)
Definition same_maps (w w' : World) : Prop :=
  player_sessions w' = player_sessions w
  /\ player_lifecycle w' = player_lifecycle w
  /\ same_store w w'.

(** The channel category of a record by its kind. *)
Definition category_of (e : Embed) : string :=
  match e with
  | MissionEmbed _ _ _ _ _ _ _ => "events"
  | ConnectionEmbed _ _ _ _ _ => "connections"
  end.

(** The router by title names the category of the record. *)
Definition routed (e : Embed) : Prop :=
  _determine_channel_type (Some (embed_title e)) = Some (category_of e).

(** The element is a dict, whatever its keys. *)
Definition is_dict (d : EmbedData) : bool :=
  match d with
  | DictData _ _ => true
  | EmbedObject _ => false
  end.

(** A guild with one server, and a chat side on which only channel 111
    exists. *)
Definition sample_guild_docs : list GuildDoc := [mkGuildDoc 1 [sample_server]].

Definition sample_discord : Discord :=
  mkDiscord (fun cid => cid =? 111) (fun _ _ => true).

Definition sample_embed : Embed :=
  MissionEmbed "Mission Available"
    "**Underground Bunker Mission** is now available for completion"
    "GA_Bunker_01_Mis1" 5 "READY" None 65280.

(** A descriptor without password; a parser that has a connection
    cached for [sample_server]; a parser that knows a player by name,
    and one that holds her session. *)
Definition server_without_password : Server :=
  mkServer (Some "EU1") (Some "s1") (Some "10.0.0.5") None (Some "user") None None.

Definition tracking_connected : World :=
  set_sftp_connections (<["1_s1_10.0.0.5_22" := 7%nat]> ∅) (tracking 1).

Definition tracking_named : World :=
  set_player_lifecycle (<["1_0002abcdef" := mkLifecycle "Alice" 0%nat]> ∅) (tracking 1).

Definition tracking_session : World :=
  set_player_sessions
    (<["1_0002abcdef" := mkSession "0002abcdef" "Alice" "1" 0%nat online None]> ∅)
    (tracking 1).

(** * Properties *)

(** ** Strings *)

Section StringFacts.

Lemma startswith_app (p x : string) : startswith p (p +:+ x) = true.
Proof.
  induction p as [|a p IH]; simpl; [done|].
  by rewrite Ascii.eqb_refl.
Qed.

Lemma contains_here (sub s : string) : startswith sub s = true -> contains sub s = true.
Proof. destruct s; simpl; [done|]. by intros ->. Qed.

Lemma contains_app_r (sub a b : string) :
  contains sub b = true -> contains sub (a +:+ b) = true.
Proof.
  intros H. induction a as [|c a IH]; simpl; [done|].
  rewrite IH. by destruct (startswith sub _).
Qed.

Lemma contains_nonempty (sub s : string) :
  sub <> EmptyString -> contains sub s = true -> s <> EmptyString.
Proof. intros Hsub H ->. destruct sub; simpl in H; congruence. Qed.

Lemma lower_char_idem (c : ascii) : lower_char (lower_char c) = lower_char c.
Proof.
  destruct c as [[] [] [] [] [] [] [] []]; reflexivity.
Qed.



End StringFacts.

(** ** Pattern matching *)

Section Matching.

Lemma greedy_continues {R : Type} (f : ascii -> bool) (k : string -> option R)
    (s : string) (r : R) :
  greedy f k s = Some r -> exists s', k s' = Some r.
Proof.
  induction s as [|c s IH]; simpl; [eauto|].
  destruct (f c); [|eauto].
  destruct (greedy f k s) eqn:E; [|eauto].
  intros [= ->]. by apply IH.
Qed.

Lemma match_here_groups (ci : bool) (p : list item) (s : string)
    (caps groups : list string) :
  match_here ci p s caps = Some groups ->
  length groups = (length caps + group_count p)%nat.
Proof.
  revert s caps. induction p as [|i p IH]; intros s caps; simpl.
  { intros [= <-]. rewrite length_rev. lia. }
  destruct i as [lc|cc|cc|cc| |]; simpl.
  - destruct s as [|c s]; [done|]. destruct (lit_match ci lc c); [apply IH|done].
  - destruct s as [|c s]; [done|]. destruct (cls_match ci cc c); [apply IH|done].
  - intros (s' & H)%greedy_continues. by apply IH in H.
  - destruct s as [|c s]; [done|]. destruct (cls_match ci cc c); [|done].
    intros (s' & H)%greedy_continues. by apply IH in H.
  - intros H%IH. simpl in H. lia.
  - destruct caps as [|opened caps]; [done|]. intros H%IH. simpl in *. lia.
Qed.

(** A match object has as many groups as its pattern. *)
Lemma search_groups (re : regex) (line : string) (groups : list string) :
  search re line = Some groups -> length groups = group_count (items re).
Proof.
  unfold search. destruct (anchored re).
  { intros H%match_here_groups. simpl in H. lia. }
  induction line as [|c line IH]; simpl.
  - destruct (match_here _ _ _ _) eqn:E; [|done].
    intros [= <-]. apply match_here_groups in E. simpl in E. lia.
  - destruct (match_here _ _ _ _) eqn:E; [|exact IH].
    intros [= <-]. apply match_here_groups in E. simpl in E. lia.
Qed.

(** The patterns unpacked into two names have two groups. *)
Lemma search_two_groups (name line : string) (groups : list string) :
  In name ["mission_respawn"; "mission_state_change"; "player_queue_join"] ->
  search (pattern name) line = Some groups ->
  exists a b, groups = [a; b].
Proof.
  intros Hname H%search_groups.
  assert (length groups = 2%nat) as Hlen.
  { rewrite H. simpl in Hname.
    destruct Hname as [<- | [<- | [<- | []]]]; reflexivity. }
  destruct groups as [|a [|b [|c groups]]]; try discriminate. eauto.
Qed.

End Matching.

(** ** Mission names and tiers *)

Section MissionCatalog.

Lemma dict_get_In (d : list (string * string)) (k v : string) :
  dict_get d k = Some v -> In (k, v) d.
Proof.
  induction d as [|[k' v'] d IH]; simpl; [done|].
  destruct (String.eqb k k') eqn:E.
  - apply String.eqb_eq in E as ->. intros [= ->]. by left.
  - intros H. right. by apply IH.
Qed.

Lemma mission_mappings_names :
  Forall (fun kv => contains "Mission" (snd kv) = true) mission_mappings.
Proof. repeat constructor. Qed.

Lemma catalog_name_has_Mission (k v : string) :
  dict_get mission_mappings k = Some v -> contains "Mission" v = true.
Proof.
  intros H%dict_get_In.
  pose proof mission_mappings_names as HF.
  rewrite Forall_forall in HF. apply (HF (k, v)). by apply list_elem_of_In.
Qed.

Lemma keyword_fallback_has_Mission (category mission_id : string) :
  contains "Mission" (keyword_fallback category mission_id) = true.
Proof.
  unfold keyword_fallback. apply contains_app_r.
  apply (contains_app_r _ " "). apply contains_here. reflexivity.
Qed.

(** C10: [normalize_mission_name] is a total function, and on every
    mission id its result contains the substring "Mission" (so it is
    not empty), whichever of the four ways produced it: catalog hit,
    keyword fallback, title-cased token join, or the Special Mission
    fallback. *)
Theorem normalize_mission_name_has_Mission (mission_id : string) :
  contains "Mission" (normalize_mission_name mission_id) = true
  /\ normalize_mission_name mission_id <> EmptyString.
Proof.
  assert (H : contains "Mission" (normalize_mission_name mission_id) = true).
  { unfold normalize_mission_name.
    destruct (dict_get mission_mappings mission_id) as [name|] eqn:Hget.
    { by apply catalog_name_has_Mission in Hget. }
    repeat match goal with
           | |- contains _ (if ?c then _ else _) = true => destruct c
           | |- contains _ (keyword_fallback _ _) = true =>
               apply keyword_fallback_has_Mission
           end.
    - apply (contains_app_r _ "Special "). apply contains_here. reflexivity.
    - apply contains_app_r. apply (contains_app_r _ " "). reflexivity. }
  split; [exact H|].
  by apply (contains_nonempty "Mission").
Qed.





End MissionCatalog.

(** ** Scoped keys *)

Section ScopedKeys.

Lemma pretty_N_go_no_underscore (x : N) (s : string) :
  no_underscore s -> no_underscore (pretty_N_go x s).
Proof.
  revert s. induction (N.lt_wf_0 x) as [x _ IH]. intros s Hs.
  destruct (decide (x = 0)%N) as [->|Hx].
  - by rewrite pretty_N_go_0.
  - rewrite pretty_N_go_step by lia.
    apply IH; [apply N.div_lt; lia|].
    unfold no_underscore in *. simpl. rewrite Hs, andb_true_r.
    unfold pretty_N_char. by repeat case_match.
Qed.

Lemma pretty_N_no_underscore (x : N) : no_underscore (pretty x).
Proof.
  unfold pretty, pretty_N. case_decide; [done|].
  by apply pretty_N_go_no_underscore.
Qed.

(** The decimal form of an integer has no underscore. *)
Lemma pretty_Z_no_underscore (z : Z) : no_underscore (pretty z).
Proof.
  destruct z as [|p|p]; unfold pretty, pretty_Z; [done| |].
  - apply pretty_N_no_underscore.
  - unfold no_underscore. simpl. apply pretty_N_no_underscore.
Qed.

Lemma append_nil (s : string) : "" +:+ s = s.
Proof. reflexivity. Qed.

Lemma append_cons (c : ascii) (a s : string) : String c a +:+ s = String c (a +:+ s).
Proof. reflexivity. Qed.

Lemma underscore_prefix_inj (a b x : string) :
  no_underscore a -> no_underscore b ->
  startswith (a +:+ "_") (b +:+ "_" +:+ x) = true -> a = b.
Proof.
  unfold no_underscore. revert b.
  induction a as [|c a IH]; intros [|d b];
    rewrite ?append_cons, ?append_nil; cbn [startswith all_chars].
  - done.
  - intros _ Hb. destruct (Ascii.eqb_spec "_"%char d) as [<-|]; [|done].
    simpl in Hb. done.
  - intros Ha _. destruct (Ascii.eqb_spec c "_"%char) as [->|]; [|done].
    simpl in Ha. done.
  - intros [_ Ha]%andb_true_iff [_ Hb]%andb_true_iff.
    destruct (Ascii.eqb_spec c d) as [->|]; [|done].
    intros H. f_equal. by apply IH.
Qed.

(** A key of tenant [B] never starts with the prefix of another tenant
    [A]: after the digits of [A] comes the underscore, and the key of
    [B] has there a digit of [B], or has ended its own digits earlier. *)
Lemma foreign_key_not_prefixed (A B : Z) (x : string) :
  A <> B -> startswith (pretty A +:+ "_") (scoped_key (pretty B) x) = false.
Proof.
  intros Hne. destruct (startswith _ _) eqn:E; [|done].
  apply underscore_prefix_inj in E; auto using pretty_Z_no_underscore.
  by apply (inj pretty) in E.
Qed.

End ScopedKeys.

(** ** Tenant cleanup *)

Section Cleanup.

Context {V : Type}.

Lemma lookup_delete_keys (keys : list string) (d : gmap string V) (k : string) :
  k ∉ keys -> delete_keys keys d !! k = d !! k.
Proof.
  unfold delete_keys. revert d.
  induction keys as [|key keys IH]; intros d Hk; simpl; [done|].
  apply not_elem_of_cons in Hk as [Hne Hk].
  rewrite IH by done. by apply lookup_delete_ne.
Qed.

Lemma lookup_delete_keys_in (keys : list string) (d : gmap string V) (k : string) :
  k ∈ keys -> delete_keys keys d !! k = None.
Proof.
  unfold delete_keys. revert d.
  induction keys as [|key keys IH]; intros d Hk; [by apply elem_of_nil in Hk|].
  simpl. destruct (decide (k ∈ keys)) as [Hin|Hnin]; [by apply IH|].
  apply elem_of_cons in Hk as [->|]; [|done].
  fold (delete_keys keys (delete key d)). rewrite lookup_delete_keys by done.
  apply lookup_delete_eq.
Qed.

Lemma elem_of_keys_with_prefix (prefix : string) (d : gmap string V) (k : string) :
  k ∈ keys_with_prefix prefix d <-> startswith prefix k = true /\ is_Some (d !! k).
Proof.
  unfold keys_with_prefix. rewrite list_elem_of_filter.
  apply and_iff_compat_l. split.
  - intros Hk. apply list_elem_of_In, in_map_iff in Hk as ([k' v] & <- & Hin).
    apply list_elem_of_In, elem_of_map_to_list in Hin. by exists v.
  - intros [v Hv]. apply list_elem_of_In, in_map_iff. exists (k, v).
    split; [done|]. by apply list_elem_of_In, elem_of_map_to_list.
Qed.

(** Keys without the prefix keep their entry. *)
Lemma lookup_remove_prefixed_other (prefix : string) (d : gmap string V) (k : string) :
  startswith prefix k = false -> remove_prefixed prefix d !! k = d !! k.
Proof.
  intros Hk. unfold remove_prefixed. apply lookup_delete_keys.
  rewrite elem_of_keys_with_prefix. intros [H _]. congruence.
Qed.

(** Keys with the prefix lose theirs. *)
Lemma lookup_remove_prefixed_own (prefix : string) (d : gmap string V) (k : string) :
  startswith prefix k = true -> remove_prefixed prefix d !! k = None.
Proof.
  intros Hk. unfold remove_prefixed.
  destruct (d !! k) as [v|] eqn:Hd.
  - apply lookup_delete_keys_in. rewrite elem_of_keys_with_prefix. eauto.
  - rewrite lookup_delete_keys; [done|].
    rewrite elem_of_keys_with_prefix. intros [_ [v Hv]]. congruence.
Qed.

End Cleanup.

Section CleanupWorld.

Lemma close_connections_frame (keys : list string) (w : World) :
  let w' := close_connections keys w in
  last_log_position w' = last_log_position w
  /\ log_file_hashes w' = log_file_hashes w
  /\ player_sessions w' = player_sessions w
  /\ server_status w' = server_status w
  /\ file_states w' = file_states w
  /\ player_lifecycle w' = player_lifecycle w
  /\ sftp_connections w' = delete_keys keys (sftp_connections w)
  /\ (forall e, e ∈ trace w' ->
        e ∈ trace w \/ exists key c, key ∈ keys /\ e = EConnClose key c).
Proof.
  revert w. induction keys as [|key keys IH]; intros w; simpl.
  { repeat split; auto. }
  destruct (IH (set_sftp_connections
                  (delete key (sftp_connections
                     match sftp_connections w !! key with
                     | Some c => emit_effect (EConnClose key c) w
                     | None => w
                     end))
                  match sftp_connections w !! key with
                  | Some c => emit_effect (EConnClose key c) w
                  | None => w
                  end))
    as (H1 & H2 & H3 & H4 & H5 & H6 & H7 & H8).
  destruct (sftp_connections w !! key) as [c|] eqn:Hc; simpl in *;
    (repeat split; [done..|]); intros e He; apply H8 in He.
  - destruct He as [He|(k' & c' & Hk' & ->)].
    + apply elem_of_app in He as [He|He]; [by left|].
      apply list_elem_of_singleton in He as ->. right. exists key, c.
      split; [apply elem_of_cons; by left|done].
    + right. exists k', c'. split; [apply elem_of_cons; by right|done].
  - destruct He as [He|(k' & c' & Hk' & ->)]; [by left|].
    right. exists k', c'. split; [apply elem_of_cons; by right|done].
Qed.

(** C6: cleaning up tenant [A] leaves every entry under a key of another
    tenant [B] (a key [f"{B}_{x}"], whatever [x] is) as it was, in each
    of the seven maps, and closes no connection of [B].  Tenants are
    integers, so prefix matching on [f"{A}_"] cannot catch a key of [B]
    even when the digits of [A] start those of [B] (12 and 123). *)
Theorem cleanup_guild_state_isolation (A B : Z) (x : string) (w : World) :
  A <> B ->
  let k := scoped_key (pretty B) x in
  let w' := cleanup_guild_state A w in
  file_states w' !! k = file_states w !! k
  /\ player_sessions w' !! k = player_sessions w !! k
  /\ server_status w' !! k = server_status w !! k
  /\ player_lifecycle w' !! k = player_lifecycle w !! k
  /\ last_log_position w' !! k = last_log_position w !! k
  /\ log_file_hashes w' !! k = log_file_hashes w !! k
  /\ sftp_connections w' !! k = sftp_connections w !! k
  /\ (forall c, EConnClose k c ∈ trace w' -> EConnClose k c ∈ trace w).
Proof.
  intros Hne k w'.
  pose proof (foreign_key_not_prefixed A B x Hne) as Hk. fold k in Hk.
  unfold w', cleanup_guild_state.
  match goal with
  | |- context [close_connections ?ks ?w0] =>
      destruct (close_connections_frame ks w0) as (H1 & H2 & H3 & H4 & H5 & H6 & H7 & H8)
  end.
  cbv zeta in *.
  rewrite H1, H2, H3, H4, H5, H6, H7. simpl in *.
  repeat split; try by apply lookup_remove_prefixed_other.
  intros c Hc. apply H8 in Hc as [Hc|(key & c' & Hkey & Heq)]; [done|].
  injection Heq as <- <-.
  apply elem_of_keys_with_prefix in Hkey as [Hkey _]. congruence.
Qed.

End CleanupWorld.

Lemma cleanup_guild_state_isolation_witness :
  let k := scoped_key (pretty 123) "s1" in
  let w' := cleanup_guild_state 12 two_tenants in
  file_states w' !! k = file_states two_tenants !! k
  /\ player_sessions w' !! k = player_sessions two_tenants !! k
  /\ server_status w' !! k = server_status two_tenants !! k
  /\ player_lifecycle w' !! k = player_lifecycle two_tenants !! k
  /\ last_log_position w' !! k = last_log_position two_tenants !! k
  /\ log_file_hashes w' !! k = log_file_hashes two_tenants !! k
  /\ sftp_connections w' !! k = sftp_connections two_tenants !! k
  /\ (forall c, EConnClose k c ∈ trace w' -> EConnClose k c ∈ trace two_tenants).
Proof. apply (cleanup_guild_state_isolation 12 123 "s1" two_tenants). lia. Defined.

(** Tenant 12 is cleaned, tenant 123 keeps its offset and connection. *)
Example cleanup_12_keeps_123 :
  let w' := cleanup_guild_state 12 two_tenants in
  file_states w' !! "12_s1" = None
  /\ file_states w' !! "123_s1" = Some sample_file_state
  /\ sftp_connections w' !! "12_s1_host_22" = None
  /\ sftp_connections w' !! "123_s1_host_22" = Some 2%nat
  /\ trace w' = [EConnClose "12_s1_host_22" 1%nat].
Proof. vm_compute. repeat split. Qed.

(** ** Event router *)

Section Router.

Variable get_guild : Z -> option GuildConfig.
Variable guild_id : Z.
Variable guild_config : GuildConfig.
Hypothesis Hguild : get_guild guild_id = Some guild_config.

Lemma configured_truthy (entry : option Z) :
  configured entry <-> channel_truthy entry = true.
Proof.
  unfold configured, channel_truthy. split.
  - intros (c & -> & Hc). by apply negb_true_iff, Z.eqb_neq.
  - destruct entry as [c|]; [|done].
    intros Hc%negb_true_iff%Z.eqb_neq. eauto.
Qed.

Lemma not_configured_truthy (entry : option Z) :
  ~ configured entry <-> channel_truthy entry = false.
Proof. rewrite configured_truthy. by destruct (channel_truthy entry). Qed.

(** C7: destination resolution takes the first configured entry in the
    order server-specific, tenant default, legacy flat table: (1) a
    configured server-specific entry is returned whatever the other
    tables hold, in particular when a default entry is configured too;
    (2) without it, a configured default entry is returned; (3) without
    both, the legacy entry (or nothing) is returned. *)
Theorem get_server_channel_precedence (server_id channel_type : string) :
  let resolved := get_server_channel (Some get_guild) guild_id server_id channel_type in
  let server_specific := table_entry guild_config server_id channel_type in
  let default := table_entry guild_config "default" channel_type in
  let legacy := channels guild_config !! channel_type in
  (configured server_specific -> resolved = server_specific)
  /\ (~ configured server_specific -> configured default -> resolved = default)
  /\ (~ configured server_specific -> ~ configured default -> resolved = legacy).
Proof.
  cbv zeta. unfold get_server_channel. rewrite Hguild.
  fold (table_entry guild_config server_id channel_type).
  fold (table_entry guild_config "default" channel_type).
  rewrite !not_configured_truthy, !configured_truthy.
  repeat split.
  - by intros ->.
  - by intros -> ->.
  - by intros -> ->.
Qed.

End Router.

Lemma get_server_channel_precedence_witness :
  get_server_channel sample_guilds 7 "srv1" "events" = Some 111
  /\ get_server_channel sample_guilds 7 "srv2" "events" = Some 222
  /\ get_server_channel sample_guilds 7 "srv1" "bounties" = Some 555.
Proof.
  pose proof (get_server_channel_precedence
                (fun guild_id => if guild_id =? 7 then Some sample_config else None)
                7 sample_config eq_refl) as P.
  split.
  { apply (proj1 (P "srv1" "events")). exists 111. split; [reflexivity|lia]. }
  split.
  { apply (proj1 (proj2 (P "srv2" "events"))).
    - intros (c & Hc & _). vm_compute in Hc. discriminate Hc.
    - exists 222. split; [reflexivity|lia]. }
  apply (proj2 (proj2 (P "srv1" "bounties"))).
  - intros (c & Hc & _). vm_compute in Hc. discriminate Hc.
  - intros (c & Hc & _). vm_compute in Hc. discriminate Hc.
Defined.

(** ** Event extraction: what a scan may do *)

Section Extraction.

Lemma emitted_app (t1 t2 : list Effect) :
  emitted (t1 ++ t2) = (emitted t1 ++ emitted t2)%list.
Proof.
  induction t1 as [|e t1 IH]; simpl; [done|].
  destruct e; simpl; by rewrite ?IH.
Qed.

Lemma same_store_refl (w : World) : same_store w w.
Proof. by repeat split. Qed.

Lemma same_store_trans (w1 w2 w3 : World) :
  same_store w1 w2 -> same_store w2 w3 -> same_store w1 w3.
Proof.
  unfold same_store. intros (? & ? & ? & ? & ? & ?) (? & ? & ? & ? & ? & ?).
  repeat split; congruence.
Qed.

Lemma acc_extends_refl (P : Effect -> Prop) (a : Acc) : acc_extends P a a.
Proof.
  exists []. simpl. rewrite !app_nil_r, Nat.add_0_r.
  repeat split; auto.
Qed.

Lemma acc_extends_trans (P : Effect -> Prop) (a1 a2 a3 : Acc) :
  acc_extends P a1 a2 -> acc_extends P a2 a3 -> acc_extends P a1 a3.
Proof.
  intros (e1 & Ht1 & HP1 & Hm1 & Hn1 & Hs1) (e2 & Ht2 & HP2 & Hm2 & Hn2 & Hs2).
  exists (e1 ++ e2). rewrite emitted_app, length_app.
  split; [by rewrite Ht2, Ht1, app_assoc|].
  split; [by apply Forall_app|].
  split; [by rewrite Hm2, Hm1, app_assoc|].
  split; [lia|].
  by apply (same_store_trans _ (acc_world a2)).
Qed.

Lemma acc_extends_mono (P Q : Effect -> Prop) (a a' : Acc) :
  (forall e, P e -> Q e) -> acc_extends P a a' -> acc_extends Q a a'.
Proof.
  intros HPQ (ext & Ht & HP & Hrest). exists ext.
  split; [done|]. split; [|done]. eapply Forall_impl; eauto.
Qed.

Lemma acc_extends_effect (P : Effect -> Prop) (e : Effect) (a : Acc) :
  P e -> emitted [e] = [] -> acc_extends P a (acc_effect e a).
Proof.
  intros HP He. exists [e]. rewrite He. simpl.
  rewrite app_nil_r, Nat.add_0_r. repeat split; auto.
Qed.

Lemma acc_extends_append (P : Effect -> Prop) (e : Embed) (a : Acc) :
  P (EEmit e) -> acc_extends P a (append_embed e a).
Proof.
  intros HP. exists [EEmit e]. simpl. repeat split; auto. lia.
Qed.

Lemma acc_extends_append_if (P : Effect -> Prop) (oe : option Embed) (a : Acc) :
  (forall e, P (EEmit e)) -> acc_extends P a (append_if oe a).
Proof.
  intros HP. destruct oe; simpl; [by apply acc_extends_append|apply acc_extends_refl].
Qed.

(** A change of the world that leaves trace and store alone. *)
Lemma acc_extends_world (P : Effect -> Prop) (a : Acc) (w : World) :
  trace w = trace (acc_world a) -> same_store (acc_world a) w ->
  acc_extends P a (mkAcc w (acc_embeds a) (acc_events a)).
Proof.
  intros Ht Hs. exists []. simpl. rewrite !app_nil_r, Nat.add_0_r.
  repeat split; auto; apply Hs.
Qed.

Variable guild_id : string.
Variable nlines : nat.

Lemma line_effect_slice (slice : list string) (line : string) (e : Effect) :
  line ∈ slice -> line_effect line e -> slice_effect slice e.
Proof. intros Hin. destruct e; simpl; try done. by intros ->. Qed.

Lemma mission_body_extends (line pattern_name : string) (re : regex) (a : Acc) :
  acc_extends (line_effect line) a
    (fst (mission_body guild_id line nlines pattern_name re a)).
Proof.
  unfold mission_body.
  destruct (startswith "mission_" pattern_name); [|apply acc_extends_refl].
  assert (Hs : acc_extends (line_effect line) a
                 (acc_effect (ESearch pattern_name line) a)).
  { by apply acc_extends_effect. }
  destruct (search re line) as [groups|]; [|exact Hs].
  match goal with
  | |- context [match ?h with Some _ => _ | None => _ end] => destruct h as [embed|]
  end; [|exact Hs].
  eapply acc_extends_trans; [exact Hs|].
  eapply acc_extends_trans; [apply (acc_extends_append_if _ embed); by intros|].
  destruct (over_limit _ _); simpl; [|apply acc_extends_refl].
  by apply acc_extends_effect.
Qed.

Lemma mission_loop_extends (line : string) (ps : list (string * regex)) (a : Acc) :
  acc_extends (line_effect line) a (mission_loop guild_id line nlines ps a).
Proof.
  revert a. induction ps as [|[pattern_name re] ps IH]; intros a; simpl.
  { apply acc_extends_refl. }
  pose proof (mission_body_extends line pattern_name re a) as Hb.
  destruct (mission_body _ _ _ _ _ a) as [a1 []]; simpl in Hb; [|done].
  eapply acc_extends_trans; [exact Hb|apply IH].
Qed.

Lemma search_extends (line pattern_name : string) (a : Acc) :
  acc_extends (line_effect line) a (acc_effect (ESearch pattern_name line) a).
Proof. by apply acc_extends_effect. Qed.

Lemma queue_join_step_extends (line : string) (a : Acc) :
  acc_extends (line_effect line) a (queue_join_step guild_id line a).
Proof.
  unfold queue_join_step.
  eapply acc_extends_trans; [apply (search_extends line "player_queue_join")|].
  destruct (search _ line) as [groups|]; [|apply acc_extends_refl].
  destruct (groups2 groups) as [player_id player_name].
  cbv beta iota delta [utcnow].
  apply (acc_extends_world _ (acc_effect (ESearch "player_queue_join" line) a));
    [done|by repeat split].
Qed.

Lemma process_player_connection_frame (player_id player_name event_type : string)
    (w : World) :
  let w' := snd (process_player_connection guild_id player_id player_name event_type w) in
  trace w' = trace w /\ same_store w w' /\ player_lifecycle w' = player_lifecycle w.
Proof.
  unfold process_player_connection.
  destruct (String.eqb event_type "joined"); simpl.
  { repeat split. }
  destruct (String.eqb event_type "disconnected"); simpl; [|by repeat split].
  destruct (player_sessions w !! _); simpl; by repeat split.
Qed.

Lemma connection_event_extends (line player_id player_name event_type : string)
    (a : Acc) :
  acc_extends (line_effect line) a
    (let '(embed, w) :=
       process_player_connection guild_id player_id player_name event_type (acc_world a) in
     append_if embed (mkAcc w (acc_embeds a) (acc_events a))).
Proof.
  pose proof (process_player_connection_frame player_id player_name event_type
                (acc_world a)) as (Ht & Hs & _).
  destruct (process_player_connection _ _ _ _ _) as [embed w]. simpl in Ht, Hs.
  eapply acc_extends_trans; [by apply (acc_extends_world _ a w)|].
  apply acc_extends_append_if. by intros.
Qed.

Lemma registered_step_extends (line : string) (a : Acc) :
  acc_extends (line_effect line) a (registered_step guild_id line a).
Proof.
  unfold registered_step.
  eapply acc_extends_trans; [apply (search_extends line "player_registered")|].
  destruct (search _ line) as [groups|]; [|apply acc_extends_refl].
  apply connection_event_extends.
Qed.

Lemma disconnect_step_extends (line : string) (a : Acc) :
  acc_extends (line_effect line) a (disconnect_step guild_id line a).
Proof.
  unfold disconnect_step.
  eapply acc_extends_trans; [apply (search_extends line "player_disconnect")|].
  destruct (search _ line) as [groups|]; [|apply acc_extends_refl].
  apply connection_event_extends.
Qed.

Lemma process_line_extends (line : string) (a : Acc) :
  acc_extends (line_effect line) a (process_line guild_id nlines line a).
Proof.
  unfold process_line.
  eapply acc_extends_trans; [apply mission_loop_extends|].
  eapply acc_extends_trans; [apply queue_join_step_extends|].
  eapply acc_extends_trans; [apply registered_step_extends|].
  apply disconnect_step_extends.
Qed.

(** The scan of the rest of a slice, [visited] being the lines before
    it: it turns to lines of the slice at their index, searches lines
    of the slice only, and what it returns is what it emitted. *)
Lemma process_lines_extends_from (visited rest : list string) (a : Acc) :
  acc_extends (slice_effect (visited ++ rest)) a
    (process_lines guild_id nlines (length visited) rest a).
Proof.
  revert visited a. induction rest as [|line rest IH]; intros visited a; simpl.
  { apply acc_extends_refl. }
  assert (Hin : line ∈ visited ++ line :: rest).
  { apply elem_of_app. right. apply elem_of_cons. by left. }
  eapply acc_extends_trans.
  { apply (acc_extends_effect _ (ELine (length visited) line)); [|done]. simpl.
    by rewrite lookup_app_r, Nat.sub_diag by lia. }
  eapply acc_extends_trans.
  { eapply acc_extends_mono; [|apply process_line_extends].
    intros e. by apply line_effect_slice. }
  destruct (over_limit _ _).
  - by apply acc_extends_effect.
  - specialize (IH (visited ++ [line])).
    rewrite length_app, Nat.add_1_r, <- app_assoc in IH. apply IH.
Qed.

Lemma process_lines_extends (lines : list string) (a : Acc) :
  acc_extends (slice_effect lines) a (process_lines guild_id nlines 0 lines a).
Proof. apply (process_lines_extends_from [] lines a). Qed.

End Extraction.

(** ** The incremental line processor *)

Section Incremental.

Variables (content guild_id server_id : string).

Let lines := splitlines content.
Let total_lines := length lines.
Let server_key := scoped_key guild_id server_id.

(** With [p] lines recorded and more than [p] lines fetched, the scan
    runs over the lines from index [p] on. *)
Lemma parse_log_content_slice (w : World) (p : nat) :
  last_processed_of server_key w = Z.of_nat p ->
  (p < total_lines)%nat ->
  parse_log_content content guild_id server_id w
  = extract guild_id server_key total_lines (drop p lines) w.
Proof.
  intros Hp Hlt. unfold parse_log_content.
  fold lines total_lines server_key. rewrite Hp.
  destruct p as [|p].
  - rewrite Z.ltb_irrefl. cbn [andb].
    destruct (Z.leb_spec (Z.of_nat total_lines) (Z.of_nat 0)); [lia|done].
  - destruct (Z.ltb_spec 0 (Z.of_nat (S p))); [|lia].
    destruct (Z.ltb_spec (Z.of_nat (S p)) (Z.of_nat total_lines)); [|lia].
    simpl andb. cbv iota. by rewrite Nat2Z.id.
Qed.

(** C3: with a recorded line count above zero and content of at most
    that many lines, [parse_log_content] returns no event and leaves the
    whole parser state as it was, the recorded [FileState] (line count
    and time stamp) included. *)
Theorem parse_log_content_noop (w : World) (fs : FileState) :
  file_states w !! server_key = Some fs ->
  0 < line_count fs ->
  Z.of_nat total_lines <= line_count fs ->
  parse_log_content content guild_id server_id w = ([], w)
  /\ file_states (snd (parse_log_content content guild_id server_id w)) !! server_key
     = Some fs.
Proof.
  intros Hfs Hpos Hle.
  assert (H : parse_log_content content guild_id server_id w = ([], w)).
  { unfold parse_log_content. fold lines total_lines server_key.
    unfold last_processed_of. rewrite Hfs.
    destruct (Z.ltb_spec (line_count fs) (Z.of_nat total_lines)); [lia|].
    rewrite andb_false_r.
    destruct (Z.leb_spec (Z.of_nat total_lines) (line_count fs)); [done|lia]. }
  by rewrite H.
Qed.

(** What [extract] does, step by step: the new [FileState] is written
    and the save is called; only then come the searches and emissions,
    all of them on lines of the slice; nothing else touches the offset
    map or the stored document. *)
Lemma extract_steps (slice : list string) (w : World) :
  let fs := mkFileState (Z.of_nat total_lines) (clock w) in
  let r := extract guild_id server_key total_lines slice w in
  exists ext : list Effect,
    trace (snd r) = trace w ++ [EFileStateWrite server_key fs; ESaveState] ++ ext
    /\ Forall (slice_effect slice) ext
    /\ fst r = emitted ext
    /\ file_states (snd r) = <[server_key := fs]> (file_states w)
    /\ match db_manager w with
       | Some _ =>
           exists t, db_manager (snd r)
                     = Some (Some (mkStateDoc (<[server_key := fs]> (file_states w)) t))
       | None => db_manager (snd r) = None
       end.
Proof.
  intros fs r. unfold r, extract.
  match goal with
  | |- context [process_lines ?g ?n _ ?l ?a] =>
      destruct (process_lines_extends g n l a) as (ext & Ht & HP & Hm & _ & Hs)
  end.
  exists ext. cbn [fst snd]. rewrite Ht, Hm.
  destruct Hs as (Hfs & Hdb & _). rewrite Hfs, Hdb. clear -HP.
  unfold _save_persistent_state, write_file_state, utcnow. simpl.
  destruct (db_manager w) as [d|] eqn:Hd; simpl;
    rewrite <- ?app_assoc; repeat split; eauto.
Qed.

(** C4: in hot-start processing the new [FileState], with the line
    count of the whole content, is written and the save is called
    before the first pattern search and the first emission of the
    cycle: the trace of the cycle starts with these two steps, every
    search and every emitted record comes after them, and the records
    returned are exactly the ones emitted there.  When a database is
    attached, the stored document holds the new offset as well. *)
Theorem state_write_before_extraction (w : World) (fs0 : FileState) :
  file_states w !! server_key = Some fs0 ->
  0 < line_count fs0 < Z.of_nat total_lines ->
  let r := parse_log_content content guild_id server_id w in
  exists (fs : FileState) (ext : list Effect),
    line_count fs = Z.of_nat total_lines
    /\ trace (snd r) = trace w ++ [EFileStateWrite server_key fs; ESaveState] ++ ext
    /\ Forall (slice_effect (drop (Z.to_nat (line_count fs0)) lines)) ext
    /\ fst r = emitted ext
    /\ file_states (snd r) !! server_key = Some fs
    /\ (forall d, db_manager w = Some d ->
        exists doc, db_manager (snd r) = Some (Some doc)
                    /\ doc_file_states doc !! server_key = Some fs).
Proof.
  intros Hfs [Hpos Hlt] r. unfold r.
  rewrite (parse_log_content_slice w (Z.to_nat (line_count fs0))).
  2: { unfold last_processed_of. rewrite Hfs. lia. }
  2: lia.
  destruct (extract_steps (drop (Z.to_nat (line_count fs0)) lines) w)
    as (ext & Ht & HP & Hm & Hf & Hdb).
  eexists _, ext. split; [|split; [exact Ht|]]; [reflexivity|].
  split; [exact HP|]. split; [exact Hm|].
  split; [rewrite Hf; apply lookup_insert_eq|].
  intros d Hd. rewrite Hd in Hdb. destruct Hdb as [t Hdb].
  eexists. split; [exact Hdb|]. simpl. apply lookup_insert_eq.
Qed.

End Incremental.

(** ** Counting the records of a line *)

Section Counting.

Variable guild_id : string.
Variable nlines : nat.

Lemma process_mission_event_some (mission_id state : string) (respawn_time : option Z) :
  exists e, process_mission_event guild_id mission_id state respawn_time = Some e.
Proof.
  unfold process_mission_event.
  repeat match goal with
         | |- context [if ?c then _ else _] => destruct c
         | |- context [match ?o with Some _ => _ | None => _ end] => destruct o
         end; eauto.
Qed.

Lemma over_limit_false (n : nat) : (n <= 2 * nlines)%nat -> over_limit nlines n = false.
Proof. intros H. unfold over_limit. apply Nat.ltb_ge. lia. Qed.

Lemma over_limit_true (n : nat) : over_limit nlines n = true -> (2 * nlines < n)%nat.
Proof. unfold over_limit. intros H%Nat.ltb_lt. lia. Qed.

(** The pattern loop of a line comes down to the two patterns that are
    handled, followed by patterns that are searched and skipped. *)
Lemma mission_loop_patterns (line : string) (a : Acc) :
  mission_loop guild_id line nlines patterns a
  = match mission_body guild_id line nlines "mission_respawn" re_mission_respawn a with
    | (a, Break) => a
    | (a, Next) =>
        match mission_body guild_id line nlines "mission_state_change"
                re_mission_state_change a with
        | (a, Break) => a
        | (a, Next) => mission_loop guild_id line nlines patterns_after_state_change a
        end
    end.
Proof. reflexivity. Qed.

Lemma mission_body_skipped (line pattern_name : string) (re : regex) (a : Acc) :
  String.eqb pattern_name "mission_respawn" = false ->
  String.eqb pattern_name "mission_state_change" = false ->
  let r := mission_body guild_id line nlines pattern_name re a in
  snd r = Next /\ acc_events (fst r) = acc_events a.
Proof.
  intros H1 H2. unfold mission_body. rewrite H1, H2.
  destruct (startswith _ _); [|done]. by destruct (search re line).
Qed.

Lemma mission_loop_skipped_all (line : string) (ps : list (string * regex)) (a : Acc) :
  Forall (fun pr => String.eqb (fst pr) "mission_respawn" = false
                    /\ String.eqb (fst pr) "mission_state_change" = false) ps ->
  acc_events (mission_loop guild_id line nlines ps a) = acc_events a.
Proof.
  intros Hps. revert a.
  induction Hps as [|[pattern_name re] ps [H1 H2] _ IH]; intros a; simpl; [done|].
  destruct (mission_body_skipped line pattern_name re a H1 H2) as [Hf He].
  destruct (mission_body _ _ _ pattern_name re a) as [a1 f]. simpl in Hf, He.
  subst f. by rewrite IH.
Qed.

Lemma mission_loop_skipped (line : string) (a : Acc) :
  acc_events (mission_loop guild_id line nlines patterns_after_state_change a)
  = acc_events a.
Proof. apply mission_loop_skipped_all. repeat constructor. Qed.

(** One of the two handled patterns: a match appends one record; the
    loop breaks exactly when the counter has then passed the limit. *)
Lemma mission_body_handled (line pattern_name : string) (a : Acc) :
  pattern_name = "mission_respawn" \/ pattern_name = "mission_state_change" ->
  let r := mission_body guild_id line nlines pattern_name (pattern pattern_name) a in
  acc_events (fst r) = (acc_events a + hit pattern_name line)%nat
  /\ (snd r = Break <->
      matched pattern_name line = true /\ over_limit nlines (acc_events (fst r)) = true).
Proof.
  intros Hname. unfold hit, matched, mission_body.
  assert (Hs : startswith "mission_" pattern_name = true) by (by destruct Hname as [-> | ->]).
  rewrite Hs. destruct (search (pattern pattern_name) line) as [groups|]; simpl.
  2: { split; [lia|]. split; [done|]. by intros [? _]. }
  assert (exists e, (if String.eqb pattern_name "mission_respawn"
                     then let '(mission_id, respawn_time) := groups2 groups in
                          Some (process_mission_event guild_id mission_id "RESPAWN"
                                  (Some (int_of_digits respawn_time)))
                     else if String.eqb pattern_name "mission_state_change"
                          then let '(mission_id, state) := groups2 groups in
                               Some (process_mission_event guild_id mission_id state None)
                          else None) = Some (Some e)) as [e ->].
  { destruct (groups2 groups) as [x y].
    destruct Hname as [-> | ->]; simpl;
      match goal with
      | |- context [process_mission_event ?g ?m ?s ?r] =>
          destruct (process_mission_event_some m s r) as [e ->]
      end; eauto. }
  simpl. destruct (over_limit nlines (S (acc_events a))) eqn:Hov; simpl;
    rewrite ?Hov; (split; [lia|]); split; try done; by intros [_ ?].
Qed.

Lemma mission_loop_events (line : string) (a : Acc) :
  (acc_events a + hit "mission_respawn" line + hit "mission_state_change" line
   <= 2 * nlines)%nat ->
  acc_events (mission_loop guild_id line nlines patterns a)
  = (acc_events a + hit "mission_respawn" line + hit "mission_state_change" line)%nat.
Proof.
  intros Hle. rewrite mission_loop_patterns.
  destruct (mission_body_handled line "mission_respawn" a) as [E1 B1]; [by left|].
  change (pattern "mission_respawn") with re_mission_respawn in *.
  destruct (mission_body _ _ _ "mission_respawn" _ a) as [a1 f1]. cbn [fst snd] in *.
  destruct f1.
  2: { destruct B1 as [[_ B1] _]; [done|]. apply over_limit_true in B1. lia. }
  destruct (mission_body_handled line "mission_state_change" a1) as [E2 B2]; [by right|].
  change (pattern "mission_state_change") with re_mission_state_change in *.
  destruct (mission_body _ _ _ "mission_state_change" _ a1) as [a2 f2].
  cbn [fst snd] in *. destruct f2.
  2: { destruct B2 as [[_ B2] _]; [done|]. apply over_limit_true in B2. lia. }
  rewrite mission_loop_skipped. lia.
Qed.

Lemma queue_join_step_events (line : string) (a : Acc) :
  acc_events (queue_join_step guild_id line a) = acc_events a.
Proof.
  unfold queue_join_step. destruct (search _ line); [|done].
  by destruct (groups2 _).
Qed.

Lemma registered_step_events (line : string) (a : Acc) :
  acc_events (registered_step guild_id line a)
  = (acc_events a + hit "player_registered" line)%nat.
Proof.
  unfold registered_step, hit, matched.
  destruct (search _ line); simpl; lia.
Qed.

Lemma disconnect_step_events (line : string) (a : Acc) :
  acc_events (disconnect_step guild_id line a)
  = (acc_events a + hit "player_disconnect" line)%nat.
Proof.
  unfold disconnect_step, hit, matched.
  destruct (search _ line); simpl; lia.
Qed.



End Counting.

(** ** Which lines a scan turns to *)

Section Scanning.

Variable guild_id : string.
Variable nlines : nat.


Lemma scanned_slice (slice : list string) (line_idx : nat) (ext : list Effect) :
  Forall (slice_effect slice) ext -> scanned line_idx ext = true ->
  is_Some (slice !! line_idx).
Proof.
  intros HP Hs. unfold scanned in Hs. apply existsb_exists in Hs as (e & Hin & He).
  rewrite Forall_forall in HP. specialize (HP e). rewrite list_elem_of_In in HP.
  specialize (HP Hin). destruct e; try done.
  apply Nat.eqb_eq in He as <-. simpl in HP. by eexists.
Qed.



End Scanning.

(** ** Hot start *)

Section HotStart.

Variables (content guild_id server_id : string).

Let lines := splitlines content.
Let total_lines := length lines.
Let server_key := scoped_key guild_id server_id.


End HotStart.

(** ** Examples of a cycle *)

Example search_respawn :
  search (pattern "mission_respawn")
    "[2025.06.01-12.00.00:000][  7]LogSFPS: Mission GA_Airport_mis_01_SFPSACMission will respawn in 1800"
  = Some ["GA_Airport_mis_01_SFPSACMission"; "1800"].
Proof. vm_compute. reflexivity. Qed.

Example search_queue_join :
  search (pattern "player_queue_join") line_queue = Some ["0002abcdef"; "Alice"].
Proof. vm_compute. reflexivity. Qed.

Example event_counts :
  event_count line_ready = 1%nat /\ event_count line_queue = 0%nat
  /\ event_count line_four = 4%nat.
Proof. vm_compute. repeat split. Qed.

Example hot_start_one_new_line :
  fst (parse_log_content (log_of [line_old; line_ready]) "1" "s1" (tracking 1))
  = [MissionEmbed "Mission Available"
       "**Underground Bunker Mission** is now available for completion"
       "GA_Bunker_01_Mis1" 5 "READY" None 65280].
Proof. vm_compute. reflexivity. Qed.

Example name_bridging :
  fst (parse_log_content (log_of [line_old; line_queue; line_registered]) "1" "s1"
         (tracking 1))
  = [ConnectionEmbed "Player Connected" "**Alice** has joined the server"
       "Alice" "0002abcdef" 65280].
Proof. vm_compute. reflexivity. Qed.

Lemma parse_log_content_noop_witness :
  parse_log_content (log_of [line_old; line_ready]) "1" "s1" (tracking 2)
  = ([], tracking 2).
Proof.
  apply (parse_log_content_noop (log_of [line_old; line_ready]) "1" "s1" (tracking 2)
           (mkFileState 2 0%nat)).
  - reflexivity.
  - simpl. lia.
  - vm_compute. discriminate.
Defined.

Lemma state_write_before_extraction_witness :
  exists (fs : FileState) (ext : list Effect),
    line_count fs = 2
    /\ trace (snd (parse_log_content (log_of [line_old; line_ready]) "1" "s1"
                     (tracking_db 1)))
       = [EFileStateWrite "1_s1" fs; ESaveState] ++ ext
    /\ fst (parse_log_content (log_of [line_old; line_ready]) "1" "s1" (tracking_db 1))
       = emitted ext.
Proof.
  destruct (state_write_before_extraction (log_of [line_old; line_ready]) "1" "s1"
              (tracking_db 1) (mkFileState 1 0%nat))
    as (fs & ext & H1 & H2 & _ & H4 & _).
  - reflexivity.
  - vm_compute. split; reflexivity.
  - exists fs, ext. split; [exact H1|]. split; [exact H2|exact H4].
Defined.



(** ** The safety break *)

Section SafetyBreak.

Variable guild_id : string.
Variable nlines : nat.

Lemma over_limit_false_inv (n : nat) :
  over_limit nlines n = false -> (n <= 2 * nlines)%nat.
Proof. unfold over_limit. intros H%Nat.ltb_ge. lia. Qed.

Lemma append_if_events (oe : option Embed) (a : Acc) :
  (acc_events (append_if oe a) <= S (acc_events a))%nat.
Proof. destruct oe; simpl; lia. Qed.

Lemma mission_body_bound (line pattern_name : string) (re : regex) (a : Acc) :
  (acc_events a <= 2 * nlines)%nat ->
  let r := mission_body guild_id line nlines pattern_name re a in
  (acc_events (fst r) <= 2 * nlines + 1)%nat
  /\ (snd r = Next -> (acc_events (fst r) <= 2 * nlines)%nat).
Proof.
  intros Ha. unfold mission_body.
  destruct (startswith _ _); [|simpl; lia].
  destruct (search re line) as [groups|]; [|simpl; lia].
  match goal with
  | |- context [match ?h with Some _ => _ | None => _ end] => destruct h as [embed|]
  end; [|simpl; lia].
  pose proof (append_if_events embed (acc_effect (ESearch pattern_name line) a)) as Hle.
  simpl in Hle.
  destruct (over_limit nlines _) eqn:Hov; simpl.
  - split; [lia|done].
  - apply over_limit_false_inv in Hov. lia.
Qed.

Lemma mission_loop_bound (line : string) (ps : list (string * regex)) (a : Acc) :
  (acc_events a <= 2 * nlines)%nat ->
  (acc_events (mission_loop guild_id line nlines ps a) <= 2 * nlines + 1)%nat.
Proof.
  revert a. induction ps as [|[pattern_name re] ps IH]; intros a Ha; simpl; [lia|].
  destruct (mission_body_bound line pattern_name re a Ha) as [H1 H2].
  destruct (mission_body _ _ _ _ _ a) as [a1 []]; simpl in *; [|lia].
  apply IH. by apply H2.
Qed.

Lemma hit_le_1 (name line : string) : (hit name line <= 1)%nat.
Proof. unfold hit. destruct (matched name line); lia. Qed.

Lemma process_line_bound (line : string) (a : Acc) :
  (acc_events a <= 2 * nlines)%nat ->
  (acc_events (process_line guild_id nlines line a) <= 2 * nlines + 3)%nat.
Proof.
  intros Ha. unfold process_line.
  rewrite disconnect_step_events, registered_step_events, queue_join_step_events.
  pose proof (mission_loop_bound line patterns a Ha).
  pose proof (hit_le_1 "player_registered" line).
  pose proof (hit_le_1 "player_disconnect" line). lia.
Qed.

(** The counter never passes twice the slice length by more than
    three: the report inside the pattern loop ends that loop only, and
    the two connection events of the same line may still follow. *)
Lemma process_lines_bound (line_idx : nat) (lines : list string) (a : Acc) :
  (acc_events a <= 2 * nlines)%nat ->
  (acc_events (process_lines guild_id nlines line_idx lines a) <= 2 * nlines + 3)%nat.
Proof.
  revert line_idx a.
  induction lines as [|line rest IH]; intros line_idx a Ha; simpl; [lia|].
  pose proof (process_line_bound line (acc_effect (ELine line_idx line) a) Ha) as H1.
  destruct (over_limit nlines _) eqn:Hov; simpl; [exact H1|].
  apply IH. by apply over_limit_false_inv.
Qed.

End SafetyBreak.

(** The records of a cycle number at most twice the slice length plus
    three, and they are returned together with the new state. *)
Lemma extract_bound (guild_id server_key : string) (total_lines : nat)
    (slice : list string) (w : World) :
  (length (fst (extract guild_id server_key total_lines slice w))
   <= 2 * length slice + 3)%nat.
Proof.
  unfold extract. cbn [fst].
  match goal with
  | |- context [process_lines ?g ?n _ ?l ?a] =>
      destruct (process_lines_extends g n l a) as (ext & _ & _ & Hm & He & _);
      pose proof (process_lines_bound g n 0%nat l a) as Hb
  end.
  simpl in Hm, He, Hb. rewrite Hm, <- He. apply Hb. lia.
Qed.

(** C5 at the failing input: one line recorded, two new lines of four
    events each (limit 4).  The fifth record passes the limit inside
    the pattern loop of the second new line and the break is reported
    there, yet two more records (the registration and the disconnect of
    that line) are appended before the check after the line stops the
    cycle: seven records are returned. *)
Theorem safety_break_emits_past_report :
  let content := log_of [line_old; line_four; line_four] in
  let r := parse_log_content content "1" "s1" (tracking 1) in
  length (fst r) = 7%nat
  /\ safety_reports (trace (snd r))
     = [ESafetyBreak InPatternLoop 5 2; ESafetyBreak AfterLine 7 2]
  /\ emitted (after_first_break (trace (snd r)))
     = [ConnectionEmbed "Player Connected" "**Unknown Player** has joined the server"
          "Unknown Player" "0002abcdef" 65280;
        ConnectionEmbed "Player Disconnected" "**Unknown Player** has left the server"
          "Unknown Player" "0002abcdef" 16711680].
Proof. vm_compute. repeat split. Qed.

(** ** Cold start *)

Section ColdStart.

Lemma search_effect_mono (l1 l2 : list string) (e : Effect) :
  l1 ⊆ l2 -> search_effect l1 e -> search_effect l2 e.
Proof. intros Hsub. destruct e; simpl; auto. Qed.

Lemma search_effect_emitted (lines : list string) (ext : list Effect) :
  Forall (search_effect lines) ext -> emitted ext = [].
Proof.
  induction 1 as [|e ext He _ IH]; [done|].
  destruct e; simpl in *; done.
Qed.

(** The pattern loop of a cold-start line only searches that line. *)
Lemma cold_mission_loop_steps (line : string) (ps : list (string * regex))
    (events_parsed : nat) (w : World) :
  exists ext : list Effect,
    snd (cold_mission_loop line ps events_parsed w) = set_trace (trace w ++ ext) w
    /\ Forall (search_effect [line]) ext.
Proof.
  revert w. induction ps as [|[pattern_name re] ps IH]; intros w;
    cbn [cold_mission_loop].
  { exists []. rewrite app_nil_r. by destruct w. }
  destruct (startswith "mission_" pattern_name); [|apply IH].
  assert (Hs : search_effect [line] (ESearch pattern_name line)).
  { simpl. apply elem_of_cons. by left. }
  destruct (search re line).
  - exists [ESearch pattern_name line]. simpl. split; [done|]. by constructor.
  - destruct (IH (emit_effect (ESearch pattern_name line) w)) as (ext & -> & HP).
    exists (ESearch pattern_name line :: ext). simpl.
    split; [|by constructor].
    unfold set_trace. simpl. by rewrite <- app_assoc.
Qed.

Lemma cold_lines_steps (lines : list string) (events_parsed : nat) (w : World) :
  exists ext : list Effect,
    snd (cold_lines lines events_parsed w) = set_trace (trace w ++ ext) w
    /\ Forall (search_effect lines) ext.
Proof.
  revert events_parsed w.
  induction lines as [|line rest IH]; intros events_parsed w; cbn [cold_lines].
  { exists []. rewrite app_nil_r. by destruct w. }
  destruct (cold_mission_loop_steps line patterns events_parsed w) as (e1 & H1 & HP1).
  destruct (cold_mission_loop line patterns events_parsed w) as [n1 w1].
  simpl in H1. subst w1.
  destruct (IH n1 (set_trace (trace w ++ e1) w)) as (e2 & -> & HP2).
  exists (e1 ++ e2). simpl. split.
  - unfold set_trace. simpl. by rewrite <- app_assoc.
  - apply Forall_app. split.
    + eapply Forall_impl; [exact HP1|]. intros e. apply search_effect_mono.
      intros x Hx. apply list_elem_of_singleton in Hx as ->. apply elem_of_cons. by left.
    + eapply Forall_impl; [exact HP2|]. intros e. apply search_effect_mono.
      intros x Hx. apply elem_of_cons. by right.
Qed.

(** What a cold start does: it searches the mission patterns on the
    lines, then records the line count and calls the save.  It emits
    nothing, and it leaves sessions, lifecycle cache and every other
    map alone. *)
Lemma cold_start_steps (content guild_id server_id : string) (w : World) :
  let lines := splitlines content in
  let server_key := scoped_key guild_id server_id in
  let fs := mkFileState (Z.of_nat (length lines)) (clock w) in
  let w' := _process_cold_start content guild_id server_id w in
  exists ext : list Effect,
    trace w' = trace w ++ ext ++ [EFileStateWrite server_key fs; ESaveState]
    /\ Forall (search_effect lines) ext
    /\ file_states w' = <[server_key := fs]> (file_states w)
    /\ player_sessions w' = player_sessions w
    /\ player_lifecycle w' = player_lifecycle w
    /\ sftp_connections w' = sftp_connections w
    /\ server_status w' = server_status w
    /\ last_log_position w' = last_log_position w
    /\ log_file_hashes w' = log_file_hashes w.
Proof.
  intros lines server_key fs w'. unfold w', _process_cold_start.
  fold lines server_key.
  destruct (cold_lines_steps lines 0%nat w) as (ext & Hw & HP).
  destruct (cold_lines lines 0%nat w) as [n w1]. simpl in Hw. subst w1.
  exists ext. split; [|split; [exact HP|]].
  - unfold _save_persistent_state, write_file_state, utcnow. simpl.
    destruct (db_manager w); simpl; by rewrite <- !app_assoc.
  - unfold _save_persistent_state, write_file_state, utcnow. simpl.
    destruct (db_manager w); simpl; by repeat split.
Qed.

Variables (guild_id : Z) (server_id content : string).

Let server_key := scoped_key (pretty guild_id) server_id.

(** The dispatch looks at the recorded line count only. *)
Lemma dispatch_content_cold (w : World) :
  content <> EmptyString ->
  last_processed_of server_key w <= 0 ->
  dispatch_content guild_id server_id content w
  = _process_cold_start content (pretty guild_id) server_id w.
Proof.
  intros Hc Hle. unfold dispatch_content. fold server_key.
  destruct content; [done|].
  destruct (Z.ltb_spec 0 (last_processed_of server_key w)); [lia|done].
Qed.


(** C9: the dispatch depends on the recorded line count being above
    zero, not on a [FileState] being recorded.  A key whose recorded
    [FileState] has line count 0 is dispatched exactly as a key without
    any: the next cycle over non-empty content is a cold start, no
    record is emitted, and the line count of the content is recorded. *)
Theorem zero_line_count_is_cold (w : World) (fs0 : FileState) :
  file_states w !! server_key = Some fs0 ->
  line_count fs0 = 0 ->
  content <> EmptyString ->
  let lines := splitlines content in
  let fs := mkFileState (Z.of_nat (length lines)) (clock w) in
  let w' := dispatch_content guild_id server_id content w in
  let w_none := set_file_states (delete server_key (file_states w)) w in
  w' = _process_cold_start content (pretty guild_id) server_id w
  /\ dispatch_content guild_id server_id content w_none
     = _process_cold_start content (pretty guild_id) server_id w_none
  /\ (exists ext : list Effect,
        trace w' = trace w ++ ext ++ [EFileStateWrite server_key fs; ESaveState]
        /\ Forall (search_effect lines) ext)
  /\ emitted (trace w') = emitted (trace w)
  /\ file_states w' !! server_key = Some fs.
Proof.
  intros Hfs Hz Hc lines fs w' w_none.
  assert (Hcold : w' = _process_cold_start content (pretty guild_id) server_id w).
  { unfold w'. apply dispatch_content_cold; [done|].
    unfold last_processed_of. rewrite Hfs. lia. }
  split; [exact Hcold|].
  split.
  { apply dispatch_content_cold; [done|].
    unfold last_processed_of, w_none. simpl. by rewrite lookup_delete_eq. }
  destruct (cold_start_steps content (pretty guild_id) server_id w)
    as (ext & Ht & HP & Hf & _).
  rewrite Hcold. split; [by exists ext|].
  split.
  - rewrite Ht, !emitted_app, (search_effect_emitted _ _ HP). simpl.
    by rewrite app_nil_r.
  - rewrite Hf. apply lookup_insert_eq.
Qed.

End ColdStart.



Lemma zero_line_count_is_cold_witness :
  dispatch_content 1 "s1" (log_of [line_old; line_ready]) (tracking 0)
  = _process_cold_start (log_of [line_old; line_ready]) (pretty 1) "s1" (tracking 0)
  /\ emitted (trace (dispatch_content 1 "s1" (log_of [line_old; line_ready])
                       (tracking 0))) = [].
Proof.
  destruct (zero_line_count_is_cold 1 "s1" (log_of [line_old; line_ready]) (tracking 0)
              (mkFileState 0 0%nat))
    as (H1 & _ & _ & H4 & _).
  - reflexivity.
  - reflexivity.
  - discriminate.
  - split; [exact H1|exact H4].
Defined.

(** ** A whole fetch cycle *)

(** With credentials, a usable host and a readable log, the cycle comes
    down to the dispatch on the content. *)
Lemma parse_server_logs_fetched (remote : Remote) (guild_id : Z) (server : Server)
    (w : World) (host user password content : string) (conn : Conn) :
  srv_host server = Some host -> srv_username server = Some user ->
  srv_password server = Some password ->
  truthy (Some host) = true -> truthy (Some user) = true ->
  truthy (Some password) = true ->
  strip host <> EmptyString ->
  let server_id := match srv_id server with Some i => i | None => "unknown" end in
  let ssh_port := match srv_port server with Some p => p | None => 22 end in
  let log_path :=
    match srv_log_path server with
    | Some p => p
    | None => "./" +:+ host +:+ "_" +:+ server_id +:+ "/Logs/Deadside.log"
    end in
  let connection_key :=
    pretty guild_id +:+ "_" +:+ server_id +:+ "_" +:+ host +:+ "_" +:+ pretty ssh_port in
  sftp_connections w !! connection_key = Some conn ->
  sftp_fetch remote conn log_path = FileContent content ->
  parse_server_logs remote guild_id server w
  = dispatch_content guild_id server_id content w.
Proof.
  intros Hh Hu Hp Th Tu Tp Hs server_id ssh_port log_path connection_key Hconn Hfetch.
  unfold parse_server_logs. rewrite Hh, Hu, Hp, Th, Tu, Tp. cbn [andb negb fmt].
  destruct (strip host) eqn:E; [done|]. cbn [String.length Nat.eqb].
  fold server_id ssh_port connection_key. rewrite Hconn. cbn iota. rewrite Hconn.
  fold log_path. by rewrite Hfetch.
Qed.

(** An empty log is a valid outcome that records nothing. *)
Example dispatch_empty_content (guild_id : Z) (server_id : string) (w : World) :
  dispatch_content guild_id server_id EmptyString w = w.
Proof. reflexivity. Qed.

(** Two cycles of one server: the first is a cold start and announces
    nothing; the second announces the one event of the appended line. *)
Example cold_then_hot :
  let w1 := parse_server_logs (remote_with (log_of [line_old])) 1 sample_server
              (new_parser None) in
  let w2 := parse_server_logs (remote_with (log_of [line_old; line_ready])) 1
              sample_server w1 in
  emitted (trace w1) = []
  /\ file_states w1 !! "1_s1" = Some (mkFileState 1 0%nat)
  /\ sftp_connections w1 !! "1_s1_10.0.0.5_22" = Some 7%nat
  /\ emitted (trace w2)
     = [MissionEmbed "Mission Available"
          "**Underground Bunker Mission** is now available for completion"
          "GA_Bunker_01_Mis1" 5 "READY" None 65280]
  /\ file_states w2 !! "1_s1" = Some (mkFileState 2 1%nat).
Proof. vm_compute. repeat split. Qed.

(** * Further properties *)

(** ** What a cycle of one tenant leaves alone *)

Section Frames.

Lemma startswith_scoped_key (g x : string) :
  startswith (g +:+ "_") (scoped_key g x) = true.
Proof.
  unfold scoped_key. induction g as [|c g IH]; [reflexivity|].
  rewrite !append_cons. cbn [startswith]. by rewrite Ascii.eqb_refl.
Qed.

Lemma scoped_key_foreign (g k x : string) :
  startswith (g +:+ "_") k = false -> scoped_key g x <> k.
Proof. intros Hk <-. by rewrite startswith_scoped_key in Hk. Qed.

Lemma tenant_frame_refl (g : string) (w : World) : tenant_frame g w w.
Proof. by repeat split. Qed.

Lemma tenant_frame_trans (g : string) (w1 w2 w3 : World) :
  tenant_frame g w1 w2 -> tenant_frame g w2 w3 -> tenant_frame g w1 w3.
Proof.
  intros (Ha & ? & ? & ?) (Hb & ? & ? & ?).
  split; [|repeat split; congruence].
  intros k Hk. destruct (Ha k Hk) as (? & ? & ? & ?).
  destruct (Hb k Hk) as (? & ? & ? & ?). repeat split; congruence.
Qed.

Lemma history_kept_refl (w : World) : history_kept w w.
Proof. by intros k. Qed.

Lemma history_kept_trans (w1 w2 w3 : World) :
  history_kept w1 w2 -> history_kept w2 w3 -> history_kept w1 w3.
Proof.
  intros Ha Hb k. destruct (Ha k) as (? & ? & ?). destruct (Hb k) as (? & ? & ?).
  repeat split; auto.
Qed.

Lemma same_maps_refl (w : World) : same_maps w w.
Proof. by repeat split. Qed.

Lemma same_maps_trans (w1 w2 w3 : World) :
  same_maps w1 w2 -> same_maps w2 w3 -> same_maps w1 w3.
Proof.
  intros (? & ? & Ha) (? & ? & Hb). repeat split; try congruence.
  all: destruct Ha as (? & ? & ? & ? & ? & ?); destruct Hb as (? & ? & ? & ? & ? & ?);
    congruence.
Qed.

Lemma same_maps_frame (g : string) (w w' : World) :
  same_maps w w' -> tenant_frame g w w' /\ history_kept w w'.
Proof.
  intros (Hs & Hl & Hf & _ & Hc & Hp & Hh & Hst).
  split.
  - split; [|by repeat split]. intros k _. by rewrite Hs, Hl, Hf, Hc.
  - intros k. by rewrite Hs, Hl, Hc.
Qed.

Variable guild_id : string.
Variable nlines : nat.

Lemma mission_body_same_maps (line pattern_name : string) (re : regex) (a : Acc) :
  same_maps (acc_world a)
    (acc_world (fst (mission_body guild_id line nlines pattern_name re a))).
Proof.
  unfold mission_body.
  destruct (startswith "mission_" pattern_name); [|apply same_maps_refl].
  destruct (search re line) as [groups|]; [|by repeat split].
  match goal with
  | |- context [match ?h with Some _ => _ | None => _ end] => destruct h as [[e|]|]
  end; simpl; try destruct (over_limit _ _); by repeat split.
Qed.

Lemma mission_loop_same_maps (line : string) (ps : list (string * regex)) (a : Acc) :
  same_maps (acc_world a) (acc_world (mission_loop guild_id line nlines ps a)).
Proof.
  revert a. induction ps as [|[pattern_name re] ps IH]; intros a; cbn [mission_loop].
  { apply same_maps_refl. }
  pose proof (mission_body_same_maps line pattern_name re a) as Hb.
  destruct (mission_body _ _ _ _ _ a) as [a1 []]; simpl in Hb; [|done].
  eapply same_maps_trans; [exact Hb|apply IH].
Qed.

(** A step that rewrites one entry of the lifecycle cache or of the
    sessions, under a key of the tenant. *)
Lemma insert_lifecycle_frame (w : World) (x : string) (lc : Lifecycle) :
  let w' := set_player_lifecycle
              (<[scoped_key guild_id x := lc]> (player_lifecycle w)) w in
  tenant_frame guild_id w w' /\ history_kept w w'.
Proof.
  split.
  - split; [|by repeat split]. intros k Hk. simpl.
    rewrite lookup_insert_ne by (by apply scoped_key_foreign). by repeat split.
  - intros k. simpl. repeat split; try done.
    intros Hs. destruct (decide (scoped_key guild_id x = k)) as [<-|Hne].
    + rewrite lookup_insert_eq. by eexists.
    + by rewrite lookup_insert_ne.
Qed.

Lemma insert_session_frame (w : World) (x : string) (sess : Session) :
  let w' := set_player_sessions
              (<[scoped_key guild_id x := sess]> (player_sessions w)) w in
  tenant_frame guild_id w w' /\ history_kept w w'.
Proof.
  split.
  - split; [|by repeat split]. intros k Hk. simpl.
    rewrite lookup_insert_ne by (by apply scoped_key_foreign). by repeat split.
  - intros k. simpl. repeat split; try done.
    intros Hs. destruct (decide (scoped_key guild_id x = k)) as [<-|Hne].
    + rewrite lookup_insert_eq. by eexists.
    + by rewrite lookup_insert_ne.
Qed.

Lemma set_clock_frame (w : World) (n : nat) :
  tenant_frame guild_id w (set_clock n w) /\ history_kept w (set_clock n w).
Proof. apply same_maps_frame. by repeat split. Qed.

Lemma frame_trans (w1 w2 w3 : World) :
  tenant_frame guild_id w1 w2 /\ history_kept w1 w2 ->
  tenant_frame guild_id w2 w3 /\ history_kept w2 w3 ->
  tenant_frame guild_id w1 w3 /\ history_kept w1 w3.
Proof.
  intros [? ?] [? ?]. split.
  - by apply (tenant_frame_trans _ w1 w2 w3).
  - by apply (history_kept_trans w1 w2 w3).
Qed.

Lemma process_player_connection_tenant (player_id player_name event_type : string)
    (w : World) :
  let w' := snd (process_player_connection guild_id player_id player_name event_type w) in
  tenant_frame guild_id w w' /\ history_kept w w'.
Proof.
  unfold process_player_connection.
  destruct (String.eqb event_type "joined"); cbn [snd].
  { eapply frame_trans; [apply (set_clock_frame w (S (clock w)))|].
    apply (insert_session_frame (set_clock (S (clock w)) w)). }
  destruct (String.eqb event_type "disconnected"); cbn [snd];
    [|apply same_maps_frame, same_maps_refl].
  destruct (player_sessions w !! scoped_key guild_id player_id) as [sess|];
    [|apply same_maps_frame, same_maps_refl].
  eapply frame_trans; [apply (set_clock_frame w (S (clock w)))|].
  apply (insert_session_frame (set_clock (S (clock w)) w)).
Qed.

Lemma connection_event_tenant (player_id player_name event_type : string) (a : Acc) :
  let a' :=
    let '(embed, w) :=
      process_player_connection guild_id player_id player_name event_type (acc_world a) in
    append_if embed (mkAcc w (acc_embeds a) (acc_events a)) in
  tenant_frame guild_id (acc_world a) (acc_world a')
  /\ history_kept (acc_world a) (acc_world a').
Proof.
  pose proof (process_player_connection_tenant player_id player_name event_type
                (acc_world a)) as H.
  destruct (process_player_connection _ _ _ _ _) as [embed w]. simpl in H.
  eapply frame_trans; [exact H|].
  apply same_maps_frame. destruct embed; simpl; by repeat split.
Qed.

Lemma process_line_tenant (line : string) (a : Acc) :
  tenant_frame guild_id (acc_world a) (acc_world (process_line guild_id nlines line a))
  /\ history_kept (acc_world a) (acc_world (process_line guild_id nlines line a)).
Proof.
  unfold process_line.
  set (a1 := mission_loop guild_id line nlines patterns a).
  assert (H1 : tenant_frame guild_id (acc_world a) (acc_world a1)
               /\ history_kept (acc_world a) (acc_world a1)).
  { apply same_maps_frame, mission_loop_same_maps. }
  set (a2 := queue_join_step guild_id line a1).
  assert (H2 : tenant_frame guild_id (acc_world a1) (acc_world a2)
               /\ history_kept (acc_world a1) (acc_world a2)).
  { unfold a2, queue_join_step.
    destruct (search _ line) as [groups|];
      [|apply same_maps_frame; by repeat split].
    destruct (groups2 groups) as [player_id player_name].
    cbv beta iota delta [utcnow]. cbn [acc_world].
    eapply frame_trans; [apply same_maps_frame|].
    2: eapply frame_trans;
         [apply (set_clock_frame _ (S (clock (acc_world
                    (acc_effect (ESearch "player_queue_join" line) a1)))))|].
    2: apply (insert_lifecycle_frame (set_clock _ _)).
    by repeat split. }
  set (a3 := registered_step guild_id line a2).
  assert (H3 : tenant_frame guild_id (acc_world a2) (acc_world a3)
               /\ history_kept (acc_world a2) (acc_world a3)).
  { unfold a3, registered_step.
    destruct (search _ line) as [groups|];
      [|apply same_maps_frame; by repeat split].
    eapply frame_trans; [|apply connection_event_tenant].
    apply same_maps_frame. by repeat split. }
  assert (H4 : tenant_frame guild_id (acc_world a3)
                 (acc_world (disconnect_step guild_id line a3))
               /\ history_kept (acc_world a3)
                    (acc_world (disconnect_step guild_id line a3))).
  { unfold disconnect_step.
    destruct (search _ line) as [groups|];
      [|apply same_maps_frame; by repeat split].
    eapply frame_trans; [|apply connection_event_tenant].
    apply same_maps_frame. by repeat split. }
  eapply frame_trans; [exact H1|]. eapply frame_trans; [exact H2|].
  eapply frame_trans; [exact H3|exact H4].
Qed.

Lemma process_lines_tenant (line_idx : nat) (lines : list string) (a : Acc) :
  tenant_frame guild_id (acc_world a)
    (acc_world (process_lines guild_id nlines line_idx lines a))
  /\ history_kept (acc_world a)
       (acc_world (process_lines guild_id nlines line_idx lines a)).
Proof.
  revert line_idx a. induction lines as [|line rest IH]; intros line_idx a;
    cbn [process_lines].
  { apply same_maps_frame, same_maps_refl. }
  eapply frame_trans.
  { apply (same_maps_frame guild_id (acc_world a)
             (acc_world (acc_effect (ELine line_idx line) a))). by repeat split. }
  eapply frame_trans; [apply process_line_tenant|].
  destruct (over_limit _ _); [apply same_maps_frame; by repeat split|apply IH].
Qed.

End Frames.

Section CycleFrames.

Variables (guild_id server_id : string).

Let server_key := scoped_key guild_id server_id.

Lemma write_save_frame (total_lines : nat) (w : World) :
  let w1 := _save_persistent_state (write_file_state server_key total_lines w) in
  tenant_frame guild_id w w1 /\ history_kept w w1
  /\ (forall k, k <> server_key -> file_states w1 !! k = file_states w !! k)
  /\ sftp_connections w1 = sftp_connections w.
Proof.
  unfold _save_persistent_state, write_file_state, utcnow. simpl.
  assert (Hne : forall k fs, k <> server_key ->
            <[server_key := fs]> (file_states w) !! k = file_states w !! k).
  { intros k fs Hk. by apply lookup_insert_ne. }
  destruct (db_manager w); simpl.
  all: split; [split; [|by repeat split]|split; [done|split; [|done]]].
  all: try (intros k Hk; repeat split; try done; apply Hne;
            intros ->; unfold server_key in Hk;
            by rewrite startswith_scoped_key in Hk).
  all: intros k Hk; by apply Hne.
Qed.

Lemma extract_frame (total_lines : nat) (slice : list string) (w : World) :
  let w' := snd (extract guild_id server_key total_lines slice w) in
  tenant_frame guild_id w w' /\ history_kept w w'
  /\ (forall k, k <> server_key -> file_states w' !! k = file_states w !! k)
  /\ sftp_connections w' = sftp_connections w.
Proof.
  unfold extract. cbn [snd].
  destruct (write_save_frame total_lines w) as (H1 & H2 & H3 & H4).
  set (w1 := _save_persistent_state (write_file_state server_key total_lines w)) in *.
  destruct (process_lines_tenant guild_id (length slice) 0 slice (mkAcc w1 [] 0%nat))
    as [H5 H6].
  destruct (process_lines_extends guild_id (length slice) slice (mkAcc w1 [] 0%nat))
    as (ext & _ & _ & _ & _ & Hfs & _ & Hc & _).
  simpl in H5, H6, Hfs, Hc.
  split; [by apply (tenant_frame_trans _ w w1)|].
  split; [by apply (history_kept_trans w w1)|].
  split; [|by rewrite Hc].
  intros k Hk. rewrite Hfs. by apply H3.
Qed.

Lemma parse_log_content_frame (content : string) (w : World) :
  let w' := snd (parse_log_content content guild_id server_id w) in
  tenant_frame guild_id w w' /\ history_kept w w'
  /\ (forall k, k <> server_key -> file_states w' !! k = file_states w !! k)
  /\ sftp_connections w' = sftp_connections w.
Proof.
  unfold parse_log_content. fold server_key.
  destruct (_ && _)%bool; [apply extract_frame|].
  destruct (_ <=? _); [|apply extract_frame].
  cbn [snd]. split; [apply tenant_frame_refl|]. by split; [apply history_kept_refl|].
Qed.

Lemma cold_start_frame (content : string) (w : World) :
  let w' := _process_cold_start content guild_id server_id w in
  tenant_frame guild_id w w' /\ history_kept w w'
  /\ (forall k, k <> server_key -> file_states w' !! k = file_states w !! k)
  /\ sftp_connections w' = sftp_connections w.
Proof.
  destruct (cold_start_steps content guild_id server_id w)
    as (ext & _ & _ & Hf & Hs & Hl & Hc & Hst & Hp & Hh).
  cbv zeta in *. fold server_key in Hf.
  assert (Hne : forall k, k <> server_key ->
            file_states (_process_cold_start content guild_id server_id w) !! k
            = file_states w !! k).
  { intros k Hk. rewrite Hf. by apply lookup_insert_ne. }
  split; [split; [|by repeat split]|].
  - intros k Hk. rewrite Hs, Hl, Hc. repeat split; try done.
    apply Hne. intros ->. unfold server_key in Hk.
    by rewrite startswith_scoped_key in Hk.
  - split; [|by split]. intros k. by rewrite Hs, Hl, Hc.
Qed.

End CycleFrames.

Section FetchCycle.

Variables (remote : Remote) (guild_id : Z) (server : Server).

Let server_id := server_id_of server.
Let server_key := scoped_key (pretty guild_id) server_id.
Let connection_key := connection_key_of guild_id server.

Lemma dispatch_content_frame (content : string) (w : World) :
  let w' := dispatch_content guild_id server_id content w in
  tenant_frame (pretty guild_id) w w' /\ history_kept w w'
  /\ (forall k, k <> server_key -> file_states w' !! k = file_states w !! k)
  /\ sftp_connections w' = sftp_connections w.
Proof.
  unfold dispatch_content.
  destruct content as [|c content].
  { split; [apply tenant_frame_refl|]. by split; [apply history_kept_refl|]. }
  destruct (negb _); [apply cold_start_frame|].
  pose proof (parse_log_content_frame (pretty guild_id) server_id
                (String c content) w) as H.
  destruct (parse_log_content _ _ _ w) as [embeds w1]. cbn [snd] in H.
  destruct embeds; [exact H|]. exact H.
Qed.

(** How a cycle can end: the world is as before, or has gained the
    connection of the server, and the content, if one was read over
    that connection, has been dispatched on it. *)
Lemma parse_server_logs_cases (w : World) :
  exists w0 : World,
    (w0 = w
     \/ exists conn, sftp_connections w !! connection_key = None
                     /\ usable server = true
                     /\ ssh_connect remote (strip (fmt (srv_host server)))
                          (match srv_port server with Some p => p | None => 22 end)
                          (fmt (srv_username server)) (fmt (srv_password server))
                        = Some conn
                     /\ w0 = set_sftp_connections
                               (<[connection_key := conn]> (sftp_connections w)) w)
    /\ (parse_server_logs remote guild_id server w = w
        \/ parse_server_logs remote guild_id server w = w0
        \/ exists conn content,
             sftp_connections w0 !! connection_key = Some conn
             /\ sftp_fetch remote conn (log_path_of server) = FileContent content
             /\ parse_server_logs remote guild_id server w
                = dispatch_content guild_id server_id content w0).
Proof.
  unfold parse_server_logs, connection_key, connection_key_of, server_id, server_id_of,
    usable, log_path_of, server_id_of.
  cbv zeta.
  match goal with
  | |- context [sftp_connections w !! ?k = None] => set (ck := k)
  end.
  destruct (truthy (srv_host server) && truthy (srv_username server)
            && truthy (srv_password server))%bool; [|exists w; auto].
  cbn [negb andb].
  destruct (_ =? _)%nat; [exists w; auto|]. cbn [negb].
  destruct (sftp_connections w !! ck) as [conn|] eqn:Hc.
  - exists w. split; [by left|]. rewrite Hc.
    destruct (sftp_fetch remote conn _) eqn:Hf; eauto 10.
  - destruct (ssh_connect remote _ _ _ _) as [conn|] eqn:Hconn; [|exists w; auto].
    exists (set_sftp_connections (<[ck := conn]> (sftp_connections w)) w).
    split; [right; eauto 10|]. cbn [sftp_connections set_sftp_connections].
    rewrite lookup_insert_eq. destruct (sftp_fetch remote conn _) eqn:Hf; eauto 10.
Qed.

Lemma connection_key_scoped :
  startswith (pretty guild_id +:+ "_") connection_key = true.
Proof. apply (startswith_scoped_key (pretty guild_id)). Qed.

Lemma parse_server_logs_frame (w : World) :
  let w' := parse_server_logs remote guild_id server w in
  tenant_frame (pretty guild_id) w w' /\ history_kept w w'
  /\ (forall k, k <> server_key -> file_states w' !! k = file_states w !! k)
  /\ (forall k, k <> connection_key -> sftp_connections w' !! k = sftp_connections w !! k).
Proof.
  destruct (parse_server_logs_cases w) as (w0 & H0 & Hw).
  assert (F0 : tenant_frame (pretty guild_id) w w0 /\ history_kept w w0
               /\ file_states w0 = file_states w
               /\ (forall k, k <> connection_key ->
                     sftp_connections w0 !! k = sftp_connections w !! k)).
  { destruct H0 as [-> | (conn & Hnone & _ & _ & ->)].
    { split; [apply tenant_frame_refl|]. by split; [apply history_kept_refl|]. }
    assert (Hne : forall k, k <> connection_key ->
              <[connection_key := conn]> (sftp_connections w) !! k
              = sftp_connections w !! k).
    { intros k Hk. by apply lookup_insert_ne. }
    split; [split; [|by repeat split]|split; [|by split]].
    - intros k Hk. simpl. repeat split; try done. apply Hne. intros ->.
      by rewrite connection_key_scoped in Hk.
    - intros k. simpl. repeat split; try done.
      intros Hs. destruct (decide (connection_key = k)) as [<-|Hk].
      + rewrite lookup_insert_eq. by eexists.
      + by rewrite lookup_insert_ne. }
  destruct F0 as (F1 & F2 & F3 & F4). cbv zeta.
  destruct Hw as [-> | [-> | (conn & content & _ & _ & ->)]].
  - split; [apply tenant_frame_refl|]. by split; [apply history_kept_refl|].
  - split; [done|]. split; [done|]. split; [|done]. intros k _. by rewrite F3.
  - destruct (dispatch_content_frame content w0) as (D1 & D2 & D3 & D4).
    cbv zeta in *.
    split; [by apply (tenant_frame_trans _ w w0)|].
    split; [by apply (history_kept_trans w w0)|].
    split.
    + intros k Hk. rewrite D3 by done. by rewrite F3.
    + intros k Hk. rewrite D4. by apply F4.
Qed.

(** X1: a fetch cycle for one server of tenant [A] leaves every entry
    of another tenant [B] as it was, in each of the seven maps: the
    offsets, sessions, lifecycle cache and connections of [B] (keys
    [f"{B}_{x}"]) are not read by name nor written. *)
Theorem parse_server_logs_tenant_isolation (B : Z) (x : string) (w : World) :
  guild_id <> B ->
  let k := scoped_key (pretty B) x in
  let w' := parse_server_logs remote guild_id server w in
  file_states w' !! k = file_states w !! k
  /\ player_sessions w' !! k = player_sessions w !! k
  /\ player_lifecycle w' !! k = player_lifecycle w !! k
  /\ sftp_connections w' !! k = sftp_connections w !! k
  /\ server_status w' !! k = server_status w !! k
  /\ last_log_position w' !! k = last_log_position w !! k
  /\ log_file_hashes w' !! k = log_file_hashes w !! k.
Proof.
  intros Hne k w'.
  destruct (parse_server_logs_frame w) as ((Hk & Hp & Hh & Hst) & _).
  fold w' in Hk, Hp, Hh, Hst.
  destruct (Hk k (foreign_key_not_prefixed guild_id B x Hne)) as (? & ? & ? & ?).
  rewrite Hp, Hh, Hst. by repeat split.
Qed.

(** X2: within the tenant, a fetch cycle writes the offset of its own
    server only and the connection of its own server only, and it
    never drops a session, a lifecycle entry or a connection that was
    recorded before. *)
Theorem parse_server_logs_own_server_only (w : World) :
  let w' := parse_server_logs remote guild_id server w in
  (forall k, k <> server_key -> file_states w' !! k = file_states w !! k)
  /\ (forall k, k <> connection_key ->
        sftp_connections w' !! k = sftp_connections w !! k)
  /\ history_kept w w'.
Proof.
  destruct (parse_server_logs_frame w) as (_ & H2 & H3 & H4).
  split; [exact H3|]. split; [exact H4|exact H2].
Qed.

End FetchCycle.

(** ** How a fetch cycle ends *)

Section FetchOutcomes.

Variables (remote : Remote) (guild_id : Z) (server : Server).

Let server_id := server_id_of server.
Let server_key := scoped_key (pretty guild_id) server_id.
Let connection_key := connection_key_of guild_id server.
Let ssh_port := match srv_port server with Some p => p | None => 22 end.

(** X3: a cycle that fails before the log is read changes nothing.
    That is so when the descriptor lacks host, user or password or its
    host is blank, and when no connection is cached and connecting
    fails; in the latter case no connection is cached either. *)
Theorem parse_server_logs_fails_early (w : World) :
  usable server = false
  \/ (sftp_connections w !! connection_key = None
      /\ ssh_connect remote (strip (fmt (srv_host server))) ssh_port
           (fmt (srv_username server)) (fmt (srv_password server)) = None) ->
  parse_server_logs remote guild_id server w = w.
Proof.
  unfold parse_server_logs, usable, connection_key, connection_key_of, ssh_port,
    server_id_of.
  cbv zeta.
  destruct (truthy (srv_host server) && truthy (srv_username server)
            && truthy (srv_password server))%bool; cbn [negb andb]; [|done].
  destruct (_ =? _)%nat; cbn [negb]; [done|].
  intros [Hu | [Hnone Hconn]]; [done|].
  by rewrite Hnone, Hconn.
Qed.

(** X4: when the log cannot be read, or is empty, the cycle records
    nothing: offsets, sessions, lifecycle cache, stored document and
    trace stay as they were; at most the connection of the server is
    added. *)
Theorem parse_server_logs_nothing_read (w : World) :
  (forall conn content,
     sftp_fetch remote conn (log_path_of server) = FileContent content ->
     content = EmptyString) ->
  let w' := parse_server_logs remote guild_id server w in
  file_states w' = file_states w
  /\ player_sessions w' = player_sessions w
  /\ player_lifecycle w' = player_lifecycle w
  /\ db_manager w' = db_manager w
  /\ trace w' = trace w
  /\ (forall k, k <> connection_key ->
        sftp_connections w' !! k = sftp_connections w !! k).
Proof.
  intros Hfetch w'. unfold w'.
  destruct (parse_server_logs_cases remote guild_id server w) as (w0 & H0 & Hw).
  assert (F0 : file_states w0 = file_states w
               /\ player_sessions w0 = player_sessions w
               /\ player_lifecycle w0 = player_lifecycle w
               /\ db_manager w0 = db_manager w
               /\ trace w0 = trace w
               /\ (forall k, k <> connection_key ->
                     sftp_connections w0 !! k = sftp_connections w !! k)).
  { destruct H0 as [-> | (conn & _ & _ & _ & ->)]; [by repeat split|].
    repeat split. intros k Hk. simpl. by apply lookup_insert_ne. }
  destruct Hw as [-> | [-> | (conn & content & _ & Hf & ->)]];
    [by repeat split|exact F0|].
  apply Hfetch in Hf as ->. exact F0.
Qed.

(** X5: a cached connection is reused: with a connection recorded
    under the key of the server, the cycle does not depend on what
    connecting would yield. *)
Theorem parse_server_logs_reuses_connection (connect1 connect2 :
    string -> Z -> string -> string -> option Conn) (w : World) :
  is_Some (sftp_connections w !! connection_key) ->
  parse_server_logs (mkRemote connect1 (sftp_fetch remote)) guild_id server w
  = parse_server_logs (mkRemote connect2 (sftp_fetch remote)) guild_id server w.
Proof.
  intros [conn Hc]. unfold parse_server_logs. cbv zeta.
  unfold connection_key, connection_key_of, server_id_of in Hc.
  destruct (negb _); [done|]. destruct (_ =? _)%nat; [done|].
  by rewrite Hc.
Qed.

End FetchOutcomes.

(** ** Offsets *)

Section Offsets.

Lemma splitlines_nonempty (content : string) :
  content <> EmptyString -> (1 <= length (splitlines content))%nat.
Proof.
  destruct content as [|c s]; [done|]. intros _. cbn [splitlines].
  destruct (is_linebreak c).
  - destruct s as [|d s']; [simpl; lia|].
    destruct (is_cr c && is_lf d)%bool; [|simpl; lia].
    destruct (splitlines (String d s')); simpl; lia.
  - destruct (splitlines s); simpl; lia.
Qed.

Variables (guild_id : Z) (server_id content : string).

Let server_key := scoped_key (pretty guild_id) server_id.
Let total_lines := length (splitlines content).

Lemma dispatch_content_hot (w : World) :
  content <> EmptyString ->
  0 < last_processed_of server_key w ->
  dispatch_content guild_id server_id content w
  = let '(embeds, w') := parse_log_content content (pretty guild_id) server_id w in
    match embeds with
    | [] => w'
    | _ => emit_effect (ESendLogEmbeds embeds) w'
    end.
Proof.
  intros Hc Hpos. unfold dispatch_content. fold server_key.
  destruct content; [done|].
  destruct (Z.ltb_spec 0 (last_processed_of server_key w)); [done|lia].
Qed.

Lemma parse_log_content_offset (w : World) :
  0 < last_processed_of server_key w ->
  last_processed_of server_key
    (snd (parse_log_content content (pretty guild_id) server_id w))
  = Z.max (last_processed_of server_key w) (Z.of_nat total_lines).
Proof.
  intros Hpos.
  destruct (Z.lt_ge_cases (last_processed_of server_key w) (Z.of_nat total_lines))
    as [Hlt | Hge].
  - rewrite (parse_log_content_slice content (pretty guild_id) server_id w
               (Z.to_nat (last_processed_of server_key w))).
    2: { fold server_key. lia. }
    2: { fold total_lines. lia. }
    destruct (extract_steps content (pretty guild_id) server_id
                (drop (Z.to_nat (last_processed_of server_key w)) (splitlines content)) w)
      as (ext & _ & _ & _ & Hf & _).
    cbv zeta in Hf. unfold last_processed_of at 1. fold server_key total_lines in Hf.
    fold server_key total_lines.
    rewrite Hf, lookup_insert_eq. simpl. lia.
  - unfold parse_log_content. fold server_key total_lines.
    destruct (Z.ltb_spec (last_processed_of server_key w) (Z.of_nat total_lines));
      [lia|].
    rewrite andb_false_r.
    destruct (Z.leb_spec (Z.of_nat total_lines) (last_processed_of server_key w));
      [|lia].
    simpl. lia.
Qed.

Lemma dispatch_content_last_processed (w : World) :
  content <> EmptyString ->
  last_processed_of server_key (dispatch_content guild_id server_id content w)
  = (if 0 <? last_processed_of server_key w
     then Z.max (last_processed_of server_key w) (Z.of_nat total_lines)
     else Z.of_nat total_lines).
Proof.
  intros Hc.
  destruct (Z.ltb_spec 0 (last_processed_of server_key w)) as [Hpos | Hle].
  - rewrite dispatch_content_hot by done.
    rewrite <- (parse_log_content_offset w Hpos).
    destruct (parse_log_content _ _ _ w) as [[|e embeds] w1]; reflexivity.
  - rewrite dispatch_content_cold by done.
    destruct (cold_start_steps content (pretty guild_id) server_id w)
      as (ext & _ & _ & Hf & _).
    cbv zeta in Hf. unfold last_processed_of. fold server_key.
    fold server_key total_lines in Hf. by rewrite Hf, lookup_insert_eq.
Qed.

Lemma dispatch_content_tracked (w : World) :
  content <> EmptyString ->
  0 < last_processed_of server_key (dispatch_content guild_id server_id content w).
Proof.
  intros Hc. rewrite dispatch_content_last_processed by done.
  pose proof (splitlines_nonempty content Hc) as Hn. fold total_lines in Hn.
  destruct (0 <? last_processed_of server_key w); lia.
Qed.

(** X6: after a cycle over a non-empty log the server is tracked: the
    recorded line count is the line count of the content when the
    cycle was a cold start, and the larger of the old count and the
    line count of the content otherwise.  So it is above zero, and in
    hot start it never decreases (a log that shrank leaves it as it
    was). *)
Theorem dispatch_content_offset (w : World) :
  content <> EmptyString ->
  let before := last_processed_of server_key w in
  let after := last_processed_of server_key
                 (dispatch_content guild_id server_id content w) in
  after = (if 0 <? before then Z.max before (Z.of_nat total_lines)
           else Z.of_nat total_lines)
  /\ 0 < after.
Proof.
  intros Hc before after. split.
  - by apply dispatch_content_last_processed.
  - by apply dispatch_content_tracked.
Qed.

(** X7: a server is cold at most once: whatever the state, the cycle
    after a cycle over a non-empty log is a hot start (it goes through
    [parse_log_content]), until the offset is reset. *)
Theorem second_cycle_is_hot (content2 : string) (w : World) :
  content <> EmptyString ->
  content2 <> EmptyString ->
  let w1 := dispatch_content guild_id server_id content w in
  dispatch_content guild_id server_id content2 w1
  = let '(embeds, w2) := parse_log_content content2 (pretty guild_id) server_id w1 in
    match embeds with
    | [] => w2
    | _ => emit_effect (ESendLogEmbeds embeds) w2
    end.
Proof.
  intros Hc Hc2 w1.
  assert (Hpos : 0 < last_processed_of server_key w1)
    by apply (dispatch_content_tracked w Hc).
  clear Hc. unfold dispatch_content at 1. fold server_key.
  destruct content2; [done|].
  destruct (Z.ltb_spec 0 (last_processed_of server_key w1)); [done|lia].
Qed.

End Offsets.

(** ** Records and events *)

Section Records.

Variable guild_id : string.
Variable nlines : nat.


End Records.

Section RecordsOfCycle.

Variables (content guild_id server_id : string).

Let lines := splitlines content.
Let server_key := scoped_key guild_id server_id.


(** X9: whatever the content and the state, a cycle returns at most
    twice as many records as it has new lines, plus three. *)
Theorem parse_log_content_bound (w : World) :
  (length (fst (parse_log_content content guild_id server_id w))
   <= 2 * (length lines - Z.to_nat (last_processed_of server_key w)) + 3)%nat.
Proof.
  unfold parse_log_content. fold lines server_key.
  destruct (Z.ltb_spec 0 (last_processed_of server_key w)) as [Hpos | Hle].
  - destruct (Z.ltb_spec (last_processed_of server_key w) (Z.of_nat (length lines))).
    + simpl andb. cbv iota.
      etransitivity; [apply extract_bound|]. rewrite length_drop. lia.
    + simpl andb. cbv iota.
      destruct (Z.leb_spec (Z.of_nat (length lines)) (last_processed_of server_key w));
        [simpl; lia|lia].
  - simpl andb. cbv iota.
    destruct (Z.leb_spec (Z.of_nat (length lines)) (last_processed_of server_key w)).
    + simpl. lia.
    + etransitivity; [apply extract_bound|].
      replace (Z.to_nat (last_processed_of server_key w)) with 0%nat by lia. lia.
Qed.

End RecordsOfCycle.

(** ** The stored document *)

Section Persistence.

Lemma save_in_sync (w : World) : db_in_sync (_save_persistent_state w).
Proof.
  unfold db_in_sync, _save_persistent_state. simpl.
  destruct (db_manager w) eqn:Hd; simpl; [done|]. by rewrite Hd.
Qed.

Lemma load_in_sync (w : World) : db_in_sync (_load_persistent_state w).
Proof.
  unfold db_in_sync, _load_persistent_state. simpl.
  destruct (db_manager w) as [[doc|]|] eqn:Hd; simpl; by rewrite ?Hd.
Qed.

Lemma db_in_sync_same_store (w w' : World) :
  same_store w w' -> db_in_sync w -> db_in_sync w'.
Proof. intros (Hf & Hd & _). unfold db_in_sync. by rewrite Hf, Hd. Qed.

Lemma extract_in_sync (guild_id server_key : string) (total_lines : nat)
    (slice : list string) (w : World) :
  db_in_sync (snd (extract guild_id server_key total_lines slice w)).
Proof.
  unfold extract. cbn [snd].
  match goal with
  | |- context [process_lines ?g ?n _ ?l ?a] =>
      destruct (process_lines_extends g n l a) as (ext & _ & _ & _ & _ & Hs)
  end.
  eapply db_in_sync_same_store; [exact Hs|]. apply save_in_sync.
Qed.

Lemma parse_log_content_in_sync (content guild_id server_id : string) (w : World) :
  db_in_sync w -> db_in_sync (snd (parse_log_content content guild_id server_id w)).
Proof.
  intros Hw. unfold parse_log_content.
  destruct (_ && _)%bool; [apply extract_in_sync|].
  destruct (_ <=? _); [exact Hw|apply extract_in_sync].
Qed.

Lemma dispatch_content_in_sync (guild_id : Z) (server_id content : string) (w : World) :
  db_in_sync w -> db_in_sync (dispatch_content guild_id server_id content w).
Proof.
  intros Hw. unfold dispatch_content. destruct content as [|c content]; [done|].
  destruct (negb _).
  { unfold _process_cold_start. destruct (cold_lines _ _ w). apply save_in_sync. }
  pose proof (parse_log_content_in_sync (String c content) (pretty guild_id)
                server_id w Hw) as H.
  destruct (parse_log_content _ _ _ w) as [[|e embeds] w1]; exact H.
Qed.

Lemma parse_server_logs_in_sync (remote : Remote) (guild_id : Z)
    (server : Server) (w : World) :
  db_in_sync w -> db_in_sync (parse_server_logs remote guild_id server w).
Proof.
  intros Hw.
  destruct (parse_server_logs_cases remote guild_id server w) as (w0 & H0 & Hcases).
  assert (H0' : db_in_sync w0).
  { destruct H0 as [-> | (conn & _ & _ & _ & ->)]; exact Hw. }
  destruct Hcases as [-> | [-> | (conn & content & _ & _ & ->)]]; try done.
  by apply dispatch_content_in_sync.
Qed.



End Persistence.

(** ** Resetting offsets *)

Section Reset.

(** X12: resetting by server key removes the offset of that server
    only, whatever guild id is passed along, and the next cycle of the
    server over a non-empty log is a cold start. *)
Theorem reset_by_key_forces_cold_start (guild_id : Z) (server_id content : string)
    (any_guild : option Z) (w : World) :
  content <> EmptyString ->
  let server_key := scoped_key (pretty guild_id) server_id in
  let w' := reset_file_states (Some server_key) any_guild w in
  file_states w' !! server_key = None
  /\ (forall k, k <> server_key -> file_states w' !! k = file_states w !! k)
  /\ dispatch_content guild_id server_id content w'
     = _process_cold_start content (pretty guild_id) server_id w'.
Proof.
  intros Hc server_key w'.
  assert (Hw : w' = set_file_states (delete server_key (file_states w)) w).
  { unfold w', reset_file_states, server_key, scoped_key.
    destruct (pretty guild_id); reflexivity. }
  rewrite Hw. cbn [file_states set_file_states].
  split; [apply lookup_delete_eq|].
  split; [intros k Hk; by apply lookup_delete_ne|].
  apply dispatch_content_cold; [done|].
  unfold last_processed_of. cbn [file_states set_file_states].
  fold server_key. by rewrite lookup_delete_eq.
Qed.

(** X13: resetting by guild (no server key, or an empty one, and a
    guild id other than 0) removes the offsets of all servers of that
    guild and of no other guild. *)
Theorem reset_by_guild_scope (server_key : option string) (A B : Z) (x : string)
    (w : World) :
  truthy server_key = false ->
  A <> 0 ->
  let w' := reset_file_states server_key (Some A) w in
  file_states w' !! scoped_key (pretty A) x = None
  /\ (A <> B ->
      file_states w' !! scoped_key (pretty B) x
      = file_states w !! scoped_key (pretty B) x).
Proof.
  intros Hsk HA w'. unfold w', reset_file_states. rewrite Hsk.
  destruct (Z.eqb_spec A 0) as [|_]; [done|]. cbn [negb file_states set_file_states].
  split.
  - apply lookup_remove_prefixed_own, startswith_scoped_key.
  - intros Hne. by apply lookup_remove_prefixed_other, foreign_key_not_prefixed.
Qed.

(** X14: a reset without a usable scope resets everything: with no
    server key (or an empty one) and no guild id, or the guild id 0,
    the offsets of every server of every guild are dropped. *)
Theorem reset_without_scope_clears_all (server_key : option string)
    (guild_id : option Z) (w : World) :
  truthy server_key = false ->
  guild_id = None \/ guild_id = Some 0 ->
  file_states (reset_file_states server_key guild_id w) = ∅.
Proof.
  intros Hsk Hg. unfold reset_file_states. rewrite Hsk.
  by destruct Hg as [-> | ->].
Qed.


End Reset.

(** ** Tenant cleanup, continued *)

Section CleanupMore.

Lemma close_connections_trace (keys : list string) (w : World) :
  exists ext, trace (close_connections keys w) = trace w ++ ext.
Proof.
  revert w. induction keys as [|key keys IH]; intros w; cbn [close_connections].
  { exists []. by rewrite app_nil_r. }
  destruct (sftp_connections w !! key) as [c|].
  - destruct (IH (set_sftp_connections
                    (delete key (sftp_connections (emit_effect (EConnClose key c) w)))
                    (emit_effect (EConnClose key c) w))) as [ext ->].
    exists (EConnClose key c :: ext). simpl. by rewrite <- app_assoc.
  - destruct (IH (set_sftp_connections (delete key (sftp_connections w)) w))
      as [ext ->].
    by exists ext.
Qed.

Lemma close_connections_closes (keys : list string) (w : World) (k : string) (c : Conn) :
  k ∈ keys -> sftp_connections w !! k = Some c ->
  EConnClose k c ∈ trace (close_connections keys w).
Proof.
  revert w. induction keys as [|key keys IH]; intros w Hin Hc.
  { by apply elem_of_nil in Hin. }
  cbn [close_connections].
  destruct (decide (key = k)) as [-> | Hne].
  - rewrite Hc.
    destruct (close_connections_trace keys
                (set_sftp_connections
                   (delete k (sftp_connections (emit_effect (EConnClose k c) w)))
                   (emit_effect (EConnClose k c) w))) as [ext ->].
    simpl. apply elem_of_app. left. apply elem_of_app. right.
    by apply list_elem_of_singleton.
  - apply elem_of_cons in Hin as [-> | Hin]; [done|].
    apply IH; [done|].
    destruct (sftp_connections w !! key); simpl; by rewrite lookup_delete_ne.
Qed.

(** X16: cleaning up tenant [A] removes every entry under a key of
    [A] from each of the seven maps, and closes every connection that
    was recorded for [A]. *)
Theorem cleanup_guild_state_removes_own (A : Z) (x : string) (w : World) :
  let k := scoped_key (pretty A) x in
  let w' := cleanup_guild_state A w in
  file_states w' !! k = None
  /\ player_sessions w' !! k = None
  /\ server_status w' !! k = None
  /\ player_lifecycle w' !! k = None
  /\ last_log_position w' !! k = None
  /\ log_file_hashes w' !! k = None
  /\ sftp_connections w' !! k = None
  /\ (forall c, sftp_connections w !! k = Some c -> EConnClose k c ∈ trace w').
Proof.
  intros k w'.
  pose proof (startswith_scoped_key (pretty A) x) as Hk. fold k in Hk.
  unfold w', cleanup_guild_state.
  match goal with
  | |- context [close_connections ?ks ?w0] =>
      destruct (close_connections_frame ks w0) as (H1 & H2 & H3 & H4 & H5 & H6 & H7 & _);
      pose proof (close_connections_closes ks w0 k) as Hclose
  end.
  cbv zeta in *. rewrite H1, H2, H3, H4, H5, H6, H7. simpl in *.
  repeat split; try by apply lookup_remove_prefixed_own.
  intros c Hc. apply Hclose; [|done].
  apply elem_of_keys_with_prefix. split; [done|by eexists].
Qed.

Lemma keys_with_prefix_removed {V : Type} (prefix : string) (d : gmap string V) :
  keys_with_prefix prefix (remove_prefixed prefix d) = [].
Proof.
  destruct (keys_with_prefix prefix (remove_prefixed prefix d)) as [|k ks] eqn:E;
    [done|].
  assert (Hin : k ∈ keys_with_prefix prefix (remove_prefixed prefix d)).
  { rewrite E. apply elem_of_cons. by left. }
  apply elem_of_keys_with_prefix in Hin as [Hk [v Hv]].
  by rewrite lookup_remove_prefixed_own in Hv.
Qed.

Lemma remove_prefixed_idem {V : Type} (prefix : string) (d : gmap string V) :
  remove_prefixed prefix (remove_prefixed prefix d) = remove_prefixed prefix d.
Proof.
  unfold remove_prefixed at 1. by rewrite keys_with_prefix_removed.
Qed.

(** X17: cleaning up a tenant twice is cleaning it up once: the second
    cleanup finds nothing to remove and nothing to close. *)
Theorem cleanup_guild_state_idempotent (A : Z) (w : World) :
  cleanup_guild_state A (cleanup_guild_state A w) = cleanup_guild_state A w.
Proof.
  set (w1 := cleanup_guild_state A w).
  assert (H : last_log_position w1 = remove_prefixed (pretty A +:+ "_") (last_log_position w)
              /\ log_file_hashes w1 = remove_prefixed (pretty A +:+ "_") (log_file_hashes w)
              /\ player_sessions w1 = remove_prefixed (pretty A +:+ "_") (player_sessions w)
              /\ server_status w1 = remove_prefixed (pretty A +:+ "_") (server_status w)
              /\ file_states w1 = remove_prefixed (pretty A +:+ "_") (file_states w)
              /\ player_lifecycle w1
                 = remove_prefixed (pretty A +:+ "_") (player_lifecycle w)
              /\ sftp_connections w1
                 = remove_prefixed (pretty A +:+ "_") (sftp_connections w)).
  { unfold w1, cleanup_guild_state.
    match goal with
    | |- context [close_connections ?ks ?w0] =>
        destruct (close_connections_frame ks w0) as (H1 & H2 & H3 & H4 & H5 & H6 & H7 & _)
    end.
    cbv zeta in *. rewrite H1, H2, H3, H4, H5, H6, H7. by repeat split. }
  destruct H as (H1 & H2 & H3 & H4 & H5 & H6 & H7).
  unfold cleanup_guild_state at 1. cbn [sftp_connections].
  rewrite H1, H2, H3, H4, H5, H6, H7, !remove_prefixed_idem, keys_with_prefix_removed.
  cbn [close_connections].
  rewrite <- H1, <- H2, <- H3, <- H4, <- H5, <- H6, <- H7. by destruct w1.
Qed.

End CleanupMore.

(** ** Player names *)

Section PlayerNames.

Variable guild_id : string.

Lemma matched_false (name line : string) :
  matched name line = false -> search (pattern name) line = None.
Proof. unfold matched. by destruct (search (pattern name) line). Qed.

Lemma hit_0 (name line : string) : matched name line = false -> hit name line = 0%nat.
Proof. unfold hit. by intros ->. Qed.

(** A line without mission event leaves embeds, counter and maps as
    they are in the pattern loop. *)
Lemma mission_loop_quiet (nlines : nat) (line : string) (a : Acc) :
  matched "mission_respawn" line = false ->
  matched "mission_state_change" line = false ->
  (acc_events a <= 2 * nlines)%nat ->
  let a1 := mission_loop guild_id line nlines patterns a in
  acc_embeds a1 = acc_embeds a /\ acc_events a1 = acc_events a
  /\ same_maps (acc_world a) (acc_world a1).
Proof.
  intros H1 H2 Hle a1.
  assert (He : acc_events a1 = acc_events a).
  { unfold a1. rewrite mission_loop_events; rewrite !hit_0 by done; lia. }
  destruct (mission_loop_extends guild_id nlines line patterns a)
    as (ext & _ & _ & Hm & Hn & _).
  fold a1 in Hm, Hn.
  split; [|split; [exact He|apply mission_loop_same_maps]].
  rewrite Hm. destruct (emitted ext); [by rewrite app_nil_r|simpl in Hn; lia].
Qed.

(** The name under which a registration is announced. *)
Lemma process_line_registered (nlines : nat) (line : string) (a : Acc)
    (groups : list string) :
  (1 <= nlines)%nat ->
  acc_embeds a = [] -> acc_events a = 0%nat ->
  matched "mission_respawn" line = false ->
  matched "mission_state_change" line = false ->
  matched "player_queue_join" line = false ->
  search (pattern "player_registered") line = Some groups ->
  matched "player_disconnect" line = false ->
  let player_id := group1 groups in
  let player_name :=
    match player_lifecycle (acc_world a) !! scoped_key guild_id player_id with
    | Some lc => lc_name lc
    | None => unknown_player
    end in
  let a' := process_line guild_id nlines line a in
  acc_embeds a'
  = [ConnectionEmbed "Player Connected"
       ("**" +:+ player_name +:+ "** has joined the server")
       player_name player_id 65280]
  /\ acc_events a' = 1%nat
  /\ exists t, player_sessions (acc_world a') !! scoped_key guild_id player_id
               = Some (mkSession player_id player_name guild_id t online None).
Proof.
  intros Hn Hm0 He0 M1 M2 M3 Hreg M4 player_id player_name a'.
  destruct (mission_loop_quiet nlines line a M1 M2) as (Em & Ev & _ & Hl & _); [lia|].
  unfold a', process_line.
  set (a1 := mission_loop guild_id line nlines patterns a) in *. clearbody a1.
  unfold queue_join_step. rewrite (matched_false _ _ M3).
  unfold registered_step. rewrite Hreg.
  unfold disconnect_step. rewrite (matched_false _ _ M4).
  cbn -[pattern scoped_key]. fold player_id. rewrite Hl. fold player_name.
  rewrite Em, Hm0, Ev, He0. cbn -[scoped_key].
  split; [done|]. split; [done|]. rewrite lookup_insert_eq. by eexists.
Qed.

(** The name under which a disconnect is announced. *)
Lemma process_line_disconnect (nlines : nat) (line : string) (a : Acc)
    (groups : list string) :
  (1 <= nlines)%nat ->
  acc_embeds a = [] -> acc_events a = 0%nat ->
  matched "mission_respawn" line = false ->
  matched "mission_state_change" line = false ->
  matched "player_queue_join" line = false ->
  matched "player_registered" line = false ->
  search (pattern "player_disconnect") line = Some groups ->
  let player_id := group1 groups in
  let key := scoped_key guild_id player_id in
  let player_name :=
    match player_sessions (acc_world a) !! key with
    | Some sess => s_player_name sess
    | None =>
        match player_lifecycle (acc_world a) !! key with
        | Some lc => lc_name lc
        | None => unknown_player
        end
    end in
  let a' := process_line guild_id nlines line a in
  acc_embeds a'
  = [ConnectionEmbed "Player Disconnected"
       ("**" +:+ player_name +:+ "** has left the server")
       player_name player_id 16711680]
  /\ acc_events a' = 1%nat
  /\ match player_sessions (acc_world a) !! key with
     | Some sess =>
         exists t, player_sessions (acc_world a') !! key
                   = Some (mkSession (s_player_id sess) (s_player_name sess)
                             (s_guild_id sess) (s_joined_at sess) offline (Some t))
     | None => player_sessions (acc_world a') !! key = None
     end.
Proof.
  intros Hn Hm0 He0 M1 M2 M3 M4 Hdis player_id key player_name a'.
  destruct (mission_loop_quiet nlines line a M1 M2) as (Em & Ev & Hs & Hl & _); [lia|].
  unfold a', process_line.
  set (a1 := mission_loop guild_id line nlines patterns a) in *. clearbody a1.
  unfold queue_join_step. rewrite (matched_false _ _ M3).
  unfold registered_step. rewrite (matched_false _ _ M4).
  unfold disconnect_step. rewrite Hdis.
  cbn -[pattern scoped_key]. fold player_id key. rewrite Hs, Hl, Em, Hm0, Ev, He0.
  unfold player_name.
  destruct (player_sessions (acc_world a) !! key) as [sess|] eqn:Hsess;
    cbn -[scoped_key].
  - split; [done|]. split; [done|]. rewrite lookup_insert_eq. by eexists.
  - split; [done|]. split; [done|]. by rewrite Hs.
Qed.

End PlayerNames.

Section NamesOfCycle.

Variables (content guild_id server_id : string).

Let lines := splitlines content.
Let server_key := scoped_key guild_id server_id.

Lemma cycle_first_record (w : World) (p : nat) (line : string) (E : Embed) :
  last_processed_of server_key w = Z.of_nat p ->
  (p < length lines)%nat ->
  lines !! p = Some line ->
  (forall a n, (1 <= n)%nat -> acc_embeds a = [] -> acc_events a = 0%nat ->
     player_sessions (acc_world a) = player_sessions w ->
     player_lifecycle (acc_world a) = player_lifecycle w ->
     acc_embeds (process_line guild_id n line a) = [E]
     /\ acc_events (process_line guild_id n line a) = 1%nat) ->
  exists rest, fst (parse_log_content content guild_id server_id w) = E :: rest.
Proof.
  intros Hp Hlt Hline Hstep.
  rewrite (parse_log_content_slice content guild_id server_id w p Hp Hlt).
  fold lines server_key.
  assert (Hslice : drop p lines = line :: drop (S p) lines) by (by apply drop_S).
  unfold extract. cbn [fst].
  set (w1 := _save_persistent_state (write_file_state server_key (length lines) w)).
  assert (Hw1 : player_sessions w1 = player_sessions w
                /\ player_lifecycle w1 = player_lifecycle w).
  { unfold w1, _save_persistent_state, write_file_state, utcnow. simpl.
    by destruct (db_manager w). }
  destruct Hw1 as [Hs Hl].
  assert (Hn : (1 <= length (drop p lines))%nat) by (rewrite Hslice; simpl; lia).
  set (n := length (drop p lines)) in *. rewrite Hslice. cbn [process_lines].
  set (a0 := acc_effect (ELine 0 line) (mkAcc w1 [] 0%nat)).
  destruct (Hstep a0 n Hn eq_refl eq_refl Hs Hl) as [Hm He].
  rewrite He, over_limit_false by lia.
  destruct (process_lines_extends_from guild_id n [line] (drop (S p) lines)
              (process_line guild_id n line a0)) as (ext & _ & _ & Hm2 & _).
  simpl length in Hm2. rewrite Hm2, Hm. by eexists.
Qed.

(** X18: name bridging across cycles.  When the first new line of a
    cycle is a registration line (and carries nothing else), the
    "Player Connected" record is the first of the list and names the
    player as the lifecycle cache has it for that id, from whichever
    earlier cycle the queue-join line was seen in; without a cache
    entry the name is "Unknown Player". *)
Theorem registration_announces_cached_name (w : World) (p : nat) (line : string)
    (groups : list string) :
  last_processed_of server_key w = Z.of_nat p ->
  (p < length lines)%nat ->
  lines !! p = Some line ->
  search (pattern "player_registered") line = Some groups ->
  matched "mission_respawn" line = false ->
  matched "mission_state_change" line = false ->
  matched "player_queue_join" line = false ->
  matched "player_disconnect" line = false ->
  let player_id := group1 groups in
  let player_name :=
    match player_lifecycle w !! scoped_key guild_id player_id with
    | Some lc => lc_name lc
    | None => unknown_player
    end in
  exists rest,
    fst (parse_log_content content guild_id server_id w)
    = ConnectionEmbed "Player Connected"
        ("**" +:+ player_name +:+ "** has joined the server")
        player_name player_id 65280 :: rest.
Proof.
  intros Hp Hlt Hline Hreg M1 M2 M3 M4 player_id player_name.
  apply (cycle_first_record w p line _ Hp Hlt Hline).
  intros a n Hn Hm0 He0 Hs Hl.
  destruct (process_line_registered guild_id n line a groups Hn Hm0 He0 M1 M2 M3 Hreg M4)
    as (H1 & H2 & _).
  cbv zeta in H1. rewrite Hl in H1. by split.
Qed.

(** X19: the name of a disconnect.  When the first new line of a
    cycle is a disconnect line (and carries nothing else), the "Player
    Disconnected" record is the first of the list and names the player
    after the session recorded for that id if there is one, else after
    the lifecycle cache, else as "Unknown Player". *)
Theorem disconnect_name_resolution (w : World) (p : nat) (line : string)
    (groups : list string) :
  last_processed_of server_key w = Z.of_nat p ->
  (p < length lines)%nat ->
  lines !! p = Some line ->
  search (pattern "player_disconnect") line = Some groups ->
  matched "mission_respawn" line = false ->
  matched "mission_state_change" line = false ->
  matched "player_queue_join" line = false ->
  matched "player_registered" line = false ->
  let player_id := group1 groups in
  let key := scoped_key guild_id player_id in
  let player_name :=
    match player_sessions w !! key with
    | Some sess => s_player_name sess
    | None =>
        match player_lifecycle w !! key with
        | Some lc => lc_name lc
        | None => unknown_player
        end
    end in
  exists rest,
    fst (parse_log_content content guild_id server_id w)
    = ConnectionEmbed "Player Disconnected"
        ("**" +:+ player_name +:+ "** has left the server")
        player_name player_id 16711680 :: rest.
Proof.
  intros Hp Hlt Hline Hdis M1 M2 M3 M4 player_id key player_name.
  apply (cycle_first_record w p line _ Hp Hlt Hline).
  intros a n Hn Hm0 He0 Hs Hl.
  destruct (process_line_disconnect guild_id n line a groups Hn Hm0 He0 M1 M2 M3 M4 Hdis)
    as (H1 & H2 & _).
  cbv zeta in H1. rewrite Hs, Hl in H1. by split.
Qed.

End NamesOfCycle.

(** ** Delivery *)

Section Delivery.

Variables (get_guild : option (Z -> option GuildConfig)) (discord : Discord)
          (guild_id : Z) (server_id : string).

Lemma channel_mapping_range (t ct : string) :
  dict_get channel_mapping t = Some ct -> ct = "events" \/ ct = "connections".
Proof.
  unfold channel_mapping. cbn [dict_get].
  repeat match goal with
         | |- context [String.eqb t ?k] => destruct (String.eqb t k)
         end; intros H; inversion H; auto.
Qed.

(** X20: what is delivered was asked for.  Every delivery of
    [send_log_embeds] is the payload of a dict of the input whose type
    is in the channel mapping, and it goes to the channel that
    [get_server_channel] resolves for the category of that type
    (events or connections, never another one); that channel id is not
    zero, the channel exists, and the send went through. *)
Theorem send_log_embeds_sound (embeds_data : list EmbedData) (cid : Z) (e : Embed) :
  (cid, e) ∈ send_log_embeds get_guild discord guild_id server_id embeds_data ->
  exists t ct,
    DictData (Some t) (Some e) ∈ embeds_data
    /\ dict_get channel_mapping t = Some ct
    /\ (ct = "events" \/ ct = "connections")
    /\ get_server_channel get_guild guild_id server_id ct = Some cid
    /\ cid <> 0
    /\ get_channel discord cid = true
    /\ send_ok discord cid e = true.
Proof.
  induction embeds_data as [|d rest IH]; cbn [send_log_embeds].
  { intros H. by apply elem_of_nil in H. }
  assert (Hrest : (cid, e) ∈ send_log_embeds get_guild discord guild_id server_id rest ->
            exists t ct,
              DictData (Some t) (Some e) ∈ d :: rest
              /\ dict_get channel_mapping t = Some ct
              /\ (ct = "events" \/ ct = "connections")
              /\ get_server_channel get_guild guild_id server_id ct = Some cid
              /\ cid <> 0
              /\ get_channel discord cid = true
              /\ send_ok discord cid e = true).
  { intros H. destruct (IH H) as (t & ct & Hin & Hrest). exists t, ct.
    split; [|exact Hrest]. apply elem_of_cons. by right. }
  destruct d as [embed_type embed|e0].
  2: { intros H. by apply elem_of_nil in H. }
  cbv zeta.
  destruct embed_type as [t|]; [|exact Hrest].
  destruct (dict_get channel_mapping t) as [ct|] eqn:Hct; [|exact Hrest].
  destruct (channel_truthy (get_server_channel get_guild guild_id server_id ct))
    eqn:Htruthy; [|exact Hrest].
  destruct (get_server_channel get_guild guild_id server_id ct) as [c|] eqn:Hch;
    [|exact Hrest].
  destruct (get_channel discord c) eqn:Hget; [|exact Hrest].
  destruct embed as [e1|]; [|exact Hrest].
  destruct (send_ok discord c e1) eqn:Hsend; [|exact Hrest].
  intros H. apply elem_of_cons in H as [Heq | H]; [|by apply Hrest].
  inversion Heq; subst c e1. exists t, ct.
  split; [apply elem_of_cons; by left|].
  split; [done|]. split; [by apply (channel_mapping_range t)|].
  split; [done|]. split; [|by split].
  intros ->. by cbn in Htruthy.
Qed.

(** X21: a failure holds up nothing, an element that is no dict ends
    the call.  Over dicts only, the deliveries of a list are the
    deliveries of its parts, one after the other (an element that
    cannot be delivered is skipped); an element that is no dict ends
    the call with the deliveries made before it, whatever follows. *)
Theorem send_log_embeds_app (l1 l2 : list EmbedData) (e : Embed) :
  forallb is_dict l1 = true ->
  send_log_embeds get_guild discord guild_id server_id (l1 ++ l2)
  = send_log_embeds get_guild discord guild_id server_id l1
    ++ send_log_embeds get_guild discord guild_id server_id l2
  /\ send_log_embeds get_guild discord guild_id server_id (l1 ++ EmbedObject e :: l2)
     = send_log_embeds get_guild discord guild_id server_id l1.
Proof.
  induction l1 as [|d l1 IH]; intros Hd.
  { split; reflexivity. }
  cbn [forallb] in Hd. apply andb_true_iff in Hd as [Hd1 Hd].
  destruct (IH Hd) as [IH1 IH2]. destruct d as [embed_type embed|e0]; [|done].
  rewrite <- !app_comm_cons. cbn [send_log_embeds]. cbv zeta.
  rewrite IH1, IH2.
  destruct (match embed_type with Some t => dict_get channel_mapping t | None => None end)
    as [ct|]; [|done].
  destruct (channel_truthy _); [|done].
  destruct (get_server_channel _ _ _ _) as [c|]; [|done].
  destruct (get_channel discord c); [|done].
  destruct embed as [e1|]; [|done].
  destruct (send_ok discord c e1); [|done].
  split; reflexivity.
Qed.

End Delivery.

(** ** Routing by title *)

Section RoutingByTitle.

Variable guild_id : string.
Variable nlines : nat.

Lemma process_mission_event_routed (mission_id state : string) (respawn_time : option Z)
    (e : Embed) :
  process_mission_event guild_id mission_id state respawn_time = Some e -> routed e.
Proof.
  unfold process_mission_event. cbv zeta.
  destruct (String.eqb state "READY"); [intros [= <-]; reflexivity|].
  destruct (String.eqb state "IN_PROGRESS"); [intros [= <-]; reflexivity|].
  destruct (String.eqb state "COMPLETED"); [intros [= <-]; reflexivity|].
  destruct respawn_time as [t|]; [|intros [= <-]; reflexivity].
  destruct (t =? 0); intros [= <-]; reflexivity.
Qed.

Lemma process_player_connection_routed (player_id player_name event_type : string)
    (w : World) (e : Embed) :
  fst (process_player_connection guild_id player_id player_name event_type w) = Some e ->
  routed e.
Proof.
  unfold process_player_connection. cbv zeta.
  destruct (String.eqb event_type "joined"); [intros [= <-]; reflexivity|].
  destruct (String.eqb event_type "disconnected"); [intros [= <-]; reflexivity|].
  done.
Qed.

Lemma append_if_routed (oe : option Embed) (a : Acc) :
  (forall e, oe = Some e -> routed e) ->
  Forall routed (acc_embeds a) -> Forall routed (acc_embeds (append_if oe a)).
Proof.
  intros Ho Ha. destruct oe as [e|]; [|done]. simpl.
  apply Forall_app. split; [done|]. apply Forall_cons. split; [by apply Ho|done].
Qed.

Lemma mission_body_routed (line pattern_name : string) (re : regex) (a : Acc) :
  Forall routed (acc_embeds a) ->
  Forall routed (acc_embeds (fst (mission_body guild_id line nlines pattern_name re a))).
Proof.
  intros Ha. unfold mission_body.
  destruct (startswith "mission_" pattern_name); [|done].
  destruct (search re line) as [groups|]; [|done].
  destruct (String.eqb pattern_name "mission_respawn").
  - destruct (groups2 groups) as [mission_id respawn_time].
    match goal with
    | |- context [append_if ?oe ?a0] =>
        assert (Hr : Forall routed (acc_embeds (append_if oe a0)))
          by (apply append_if_routed; [apply process_mission_event_routed|done])
    end.
    by destruct (over_limit _ _).
  - destruct (String.eqb pattern_name "mission_state_change"); [|done].
    destruct (groups2 groups) as [mission_id state].
    match goal with
    | |- context [append_if ?oe ?a0] =>
        assert (Hr : Forall routed (acc_embeds (append_if oe a0)))
          by (apply append_if_routed; [apply process_mission_event_routed|done])
    end.
    by destruct (over_limit _ _).
Qed.

Lemma mission_loop_routed (line : string) (ps : list (string * regex)) (a : Acc) :
  Forall routed (acc_embeds a) ->
  Forall routed (acc_embeds (mission_loop guild_id line nlines ps a)).
Proof.
  revert a. induction ps as [|[pattern_name re] ps IH]; intros a Ha; simpl; [done|].
  pose proof (mission_body_routed line pattern_name re a Ha) as Hb.
  destruct (mission_body _ _ _ _ _ a) as [a1 []]; simpl in Hb; [|done].
  by apply IH.
Qed.

Lemma connection_event_routed (player_id player_name event_type : string) (a : Acc) :
  Forall routed (acc_embeds a) ->
  Forall routed
    (acc_embeds
       (let '(embed, w) :=
          process_player_connection guild_id player_id player_name event_type
            (acc_world a) in
        append_if embed (mkAcc w (acc_embeds a) (acc_events a)))).
Proof.
  intros Ha.
  pose proof (process_player_connection_routed player_id player_name event_type
                (acc_world a)) as Hp.
  destruct (process_player_connection _ _ _ _ _) as [embed w]. cbn [fst] in Hp.
  by apply append_if_routed.
Qed.

Lemma process_line_routed (line : string) (a : Acc) :
  Forall routed (acc_embeds a) ->
  Forall routed (acc_embeds (process_line guild_id nlines line a)).
Proof.
  intros Ha. unfold process_line.
  pose proof (mission_loop_routed line patterns a Ha) as H1.
  set (a1 := mission_loop guild_id line nlines patterns a) in *. clearbody a1.
  assert (H2 : Forall routed (acc_embeds (queue_join_step guild_id line a1))).
  { unfold queue_join_step. destruct (search _ line) as [groups|]; [|done].
    by destruct (groups2 groups). }
  set (a2 := queue_join_step guild_id line a1) in *. clearbody a2.
  assert (H3 : Forall routed (acc_embeds (registered_step guild_id line a2))).
  { unfold registered_step. destruct (search _ line) as [groups|]; [|done].
    by apply (connection_event_routed _ _ _
                (acc_effect (ESearch "player_registered" line) a2)). }
  set (a3 := registered_step guild_id line a2) in *. clearbody a3.
  unfold disconnect_step. destruct (search _ line) as [groups|]; [|done].
  by apply (connection_event_routed _ _ _
              (acc_effect (ESearch "player_disconnect" line) a3)).
Qed.

Lemma process_lines_routed (line_idx : nat) (lines : list string) (a : Acc) :
  Forall routed (acc_embeds a) ->
  Forall routed (acc_embeds (process_lines guild_id nlines line_idx lines a)).
Proof.
  revert line_idx a. induction lines as [|line rest IH]; intros line_idx a Ha;
    cbn [process_lines]; [done|].
  pose proof (process_line_routed line (acc_effect (ELine line_idx line) a) Ha) as H1.
  destruct (over_limit _ _); [done|]. by apply IH.
Qed.

End RoutingByTitle.

(** X22: the titles the parser gives its records agree with the
    router by title.  For every record that a cycle returns,
    [_determine_channel_type] on its title names the category of its
    kind: events for a mission record, connections for a connection
    record; none is left without a category and none goes to
    bounties. *)
Theorem parse_log_content_records_routed (content guild_id server_id : string)
    (w : World) (e : Embed) :
  e ∈ fst (parse_log_content content guild_id server_id w) ->
  _determine_channel_type (Some (embed_title e)) = Some (category_of e).
Proof.
  assert (H : Forall routed (fst (parse_log_content content guild_id server_id w))).
  { unfold parse_log_content. cbv zeta.
    destruct (_ && _)%bool; [by apply process_lines_routed|].
    destruct (_ <=? _); [done|by apply process_lines_routed]. }
  intros Hin. by apply (proj1 (Forall_forall _ _) H).
Qed.

(** ** A run over all guilds *)

Section Run.

Variable remote : Remote.

Lemma parse_servers_frame (guild_id : Z) (servers : list Server) (w : World) :
  let w' := parse_servers remote guild_id servers w in
  tenant_frame (pretty guild_id) w w' /\ history_kept w w'
  /\ (db_in_sync w -> db_in_sync w').
Proof.
  revert w. induction servers as [|server rest IH]; intros w; cbn [parse_servers].
  { split; [apply tenant_frame_refl|]. split; [apply history_kept_refl|done]. }
  destruct (parse_server_logs_frame remote guild_id server w) as (F1 & F2 & _).
  destruct (IH (parse_server_logs remote guild_id server w)) as (G1 & G2 & G3).
  cbv zeta in *.
  split; [by eapply tenant_frame_trans|].
  split; [by eapply history_kept_trans|].
  intros Hs. apply G3. by apply parse_server_logs_in_sync.
Qed.


Lemma parse_guilds_foreign (B : Z) (x : string) (guilds_list : list GuildDoc)
    (w : World) :
  (forall guild_doc, guild_doc ∈ guilds_list -> gd_id guild_doc <> B) ->
  let k := scoped_key (pretty B) x in
  let w' := parse_guilds remote guilds_list w in
  file_states w' !! k = file_states w !! k
  /\ player_sessions w' !! k = player_sessions w !! k
  /\ player_lifecycle w' !! k = player_lifecycle w !! k
  /\ sftp_connections w' !! k = sftp_connections w !! k
  /\ server_status w' !! k = server_status w !! k
  /\ last_log_position w' !! k = last_log_position w !! k
  /\ log_file_hashes w' !! k = log_file_hashes w !! k.
Proof.
  revert w. induction guilds_list as [|guild_doc rest IH]; intros w Hne k;
    cbn [parse_guilds]; [done|].
  assert (Hhd : gd_id guild_doc <> B) by (apply Hne, elem_of_cons; by left).
  assert (Htl : forall gd, gd ∈ rest -> gd_id gd <> B)
    by (intros gd Hin; apply Hne, elem_of_cons; by right).
  destruct (parse_servers_frame (gd_id guild_doc) (gd_servers guild_doc) w)
    as ((Hk & Hp & Hh & Hst) & _).
  specialize (IH (parse_servers remote (gd_id guild_doc) (gd_servers guild_doc) w) Htl).
  cbv zeta in *. fold k in IH.
  destruct (Hk k (foreign_key_not_prefixed (gd_id guild_doc) B x Hhd)) as (? & ? & ? & ?).
  destruct IH as (I1 & I2 & I3 & I4 & I5 & I6 & I7).
  rewrite I1, I2, I3, I4, I5, I6, I7, Hp, Hh, Hst. by repeat split.
Qed.

(** X23: a run over the guilds of the database touches their entries
    only: every entry of a tenant [B] that is not among the guilds of
    the run is as before, in each of the seven maps. *)
Theorem run_log_parser_tenant_isolation (B : Z) (x : string)
    (guilds_list : list GuildDoc) (w : World) :
  (forall guild_doc, guild_doc ∈ guilds_list -> gd_id guild_doc <> B) ->
  let k := scoped_key (pretty B) x in
  let w' := run_log_parser remote guilds_list w in
  file_states w' !! k = file_states w !! k
  /\ player_sessions w' !! k = player_sessions w !! k
  /\ player_lifecycle w' !! k = player_lifecycle w !! k
  /\ sftp_connections w' !! k = sftp_connections w !! k
  /\ server_status w' !! k = server_status w !! k
  /\ last_log_position w' !! k = last_log_position w !! k
  /\ log_file_hashes w' !! k = log_file_hashes w !! k.
Proof.
  intros Hne k w'. unfold w', run_log_parser.
  destruct (db_manager w); [|done]. by apply parse_guilds_foreign.
Qed.


End Run.

(** ** Status views *)

Section Views.

Lemma startswith_weaken (p q k : string) :
  startswith (p +:+ q) k = true -> startswith p k = true.
Proof.
  revert k. induction p as [|a p IH]; intros k; [done|].
  rewrite append_cons. destruct k as [|b k]; cbn [startswith]; [done|].
  destruct (Ascii.eqb a b); [apply IH|done].
Qed.

Lemma startswith_cancel (a b c : string) :
  startswith (a +:+ b) (a +:+ c) = startswith b c.
Proof.
  induction a as [|x a IH]; [done|].
  rewrite !append_cons. cbn [startswith]. by rewrite Ascii.eqb_refl.
Qed.

Lemma append_assoc (a b c : string) : (a +:+ b) +:+ c = a +:+ (b +:+ c).
Proof. induction a as [|x a IH]; [done|]. rewrite !append_cons. by rewrite IH. Qed.

(** X25: after the cleanup of a tenant its status view is empty, for
    every server: no offset, no status, no active player, and not
    connected. *)
Theorem cleanup_guild_state_empties_view (A : Z) (server_id : string) (w : World) :
  get_guild_server_state A server_id (cleanup_guild_state A w)
  = mkGuildServerState None None [] false.
Proof.
  set (w' := cleanup_guild_state A w).
  assert (Hown : forall k, startswith (pretty A +:+ "_") k = true ->
            file_states w' !! k = None /\ server_status w' !! k = None
            /\ player_sessions w' !! k = None /\ sftp_connections w' !! k = None).
  { intros k Hk. unfold w', cleanup_guild_state.
    match goal with
    | |- context [close_connections ?ks ?w0] =>
        destruct (close_connections_frame ks w0) as (_ & _ & H3 & H4 & H5 & _ & H7 & _)
    end.
    cbv zeta in *. rewrite H3, H4, H5, H7. simpl.
    repeat split; by apply lookup_remove_prefixed_own. }
  unfold get_guild_server_state. cbv zeta.
  destruct (Hown (scoped_key (pretty A) server_id) (startswith_scoped_key _ _))
    as (-> & -> & _ & _).
  f_equal.
  - match goal with |- map snd ?l = [] => destruct l as [|kv l'] eqn:E end; [done|].
    assert (Hin : In kv (kv :: l')) by (by left). rewrite <- E in Hin.
    apply filter_In in Hin as [Hin Hp]. apply andb_true_iff in Hp as [Hp _].
    destruct kv as [k v]. apply list_elem_of_In, elem_of_map_to_list in Hin.
    destruct (Hown k Hp) as (_ & _ & Hs & _). cbn [fst] in *. congruence.
  - destruct (existsb _ _) eqn:E; [|done].
    apply existsb_exists in E as (k & Hin & Hp).
    apply in_map_iff in Hin as ([k' c] & <- & Hin).
    apply list_elem_of_In, elem_of_map_to_list in Hin. cbn [fst] in *.
    assert (Hk : startswith (pretty A +:+ "_") k' = true).
    { apply (startswith_weaken _ (server_id +:+ "_")). by rewrite append_assoc. }
    destruct (Hown k' Hk) as (_ & _ & _ & Hc). congruence.
Qed.

Variables (remote : Remote) (guild_id : Z) (server : Server).

Lemma parse_server_logs_connected (w : World) :
  usable server = true ->
  is_Some (sftp_connections w !! connection_key_of guild_id server)
  \/ is_Some (ssh_connect remote (strip (fmt (srv_host server)))
                (match srv_port server with Some p => p | None => 22 end)
                (fmt (srv_username server)) (fmt (srv_password server))) ->
  is_Some (sftp_connections (parse_server_logs remote guild_id server w)
           !! connection_key_of guild_id server).
Proof.
  intros Hu Hc.
  unfold parse_server_logs, usable, connection_key_of, server_id_of in *.
  cbv zeta.
  match goal with
  | |- context [sftp_connections w !! ?k] => set (ck := k) in *
  end.
  destruct (truthy (srv_host server) && truthy (srv_username server)
            && truthy (srv_password server))%bool; [|done].
  cbn [negb andb] in *.
  destruct (_ =? _)%nat; [done|]. cbn [negb].
  assert (Hdisp : forall w0 (conn : Conn),
            sftp_connections w0 !! ck = Some conn ->
            is_Some (sftp_connections
                       (match sftp_fetch remote conn
                                (match srv_log_path server with
                                 | Some p => p
                                 | None =>
                                     "./" +:+ fmt (srv_host server) +:+ "_"
                                     +:+ match srv_id server with
                                         | Some i => i
                                         | None => "unknown"
                                         end +:+ "/Logs/Deadside.log"
                                 end) with
                        | FileContent content =>
                            dispatch_content guild_id
                              match srv_id server with
                              | Some i => i
                              | None => "unknown"
                              end content w0
                        | _ => w0
                        end) !! ck)).
  { intros w0 conn H0. destruct (sftp_fetch remote conn _); try by eexists.
    destruct (dispatch_content_frame guild_id server content w0) as (_ & _ & _ & Hd).
    unfold server_id_of in Hd. cbv zeta in Hd. rewrite Hd. by eexists. }
  destruct (sftp_connections w !! ck) as [conn|] eqn:Hcached.
  - rewrite Hcached. by apply Hdisp.
  - destruct Hc as [[c Hc] | [conn Hconn]]; [done|].
    rewrite Hconn. cbn [sftp_connections set_sftp_connections].
    rewrite lookup_insert_eq. apply Hdisp. cbn [sftp_connections set_sftp_connections].
    by rewrite lookup_insert_eq.
Qed.

(** X26: once a cycle has got past connecting, the server is reported
    as connected, even if its log could then not be read: with a
    usable descriptor and a connection that is cached or can be made,
    the view of the server says connected after the cycle and the
    parser status says healthy. *)
Theorem parse_server_logs_reports_connected (w : World) :
  usable server = true ->
  is_Some (sftp_connections w !! connection_key_of guild_id server)
  \/ is_Some (ssh_connect remote (strip (fmt (srv_host server)))
                (match srv_port server with Some p => p | None => 22 end)
                (fmt (srv_username server)) (fmt (srv_password server))) ->
  let w' := parse_server_logs remote guild_id server w in
  gs_sftp_connected (get_guild_server_state guild_id (server_id_of server) w') = true
  /\ ps_connection_status (get_parser_status w') = "healthy".
Proof.
  intros Hu Hc w'.
  destruct (parse_server_logs_connected w Hu Hc) as [conn Hconn]. fold w' in Hconn.
  split.
  - unfold get_guild_server_state. cbn [gs_sftp_connected].
    apply existsb_exists. exists (connection_key_of guild_id server). split.
    + apply in_map_iff. exists (connection_key_of guild_id server, conn).
      split; [done|]. by apply list_elem_of_In, elem_of_map_to_list.
    + unfold connection_key_of.
      rewrite startswith_cancel. rewrite !append_cons, !append_nil.
      cbn [startswith]. rewrite Ascii.eqb_refl.
      rewrite startswith_cancel. reflexivity.
  - unfold get_parser_status. cbn [ps_connection_status].
    destruct (decide (sftp_connections w' = ∅)) as [He|]; [|done].
    by rewrite He, lookup_empty in Hconn.
Qed.

End Views.

(** ** Instances *)

Lemma parse_server_logs_tenant_isolation_witness :
  let k := scoped_key (pretty 2) "s1" in
  let w' := parse_server_logs (remote_with (log_of [line_old; line_ready])) 1
              sample_server (tracking 1) in
  file_states w' !! k = file_states (tracking 1) !! k
  /\ player_sessions w' !! k = player_sessions (tracking 1) !! k
  /\ player_lifecycle w' !! k = player_lifecycle (tracking 1) !! k
  /\ sftp_connections w' !! k = sftp_connections (tracking 1) !! k
  /\ server_status w' !! k = server_status (tracking 1) !! k
  /\ last_log_position w' !! k = last_log_position (tracking 1) !! k
  /\ log_file_hashes w' !! k = log_file_hashes (tracking 1) !! k.
Proof.
  apply (parse_server_logs_tenant_isolation
           (remote_with (log_of [line_old; line_ready])) 1 sample_server 2 "s1"
           (tracking 1)).
  lia.
Defined.

Lemma parse_server_logs_own_server_only_witness :
  file_states (parse_server_logs (remote_with (log_of [line_old; line_ready])) 1
                 sample_server (tracking 1)) !! "1_s2"
  = file_states (tracking 1) !! "1_s2".
Proof.
  apply (proj1 (parse_server_logs_own_server_only
                  (remote_with (log_of [line_old; line_ready])) 1 sample_server
                  (tracking 1))).
  vm_compute. discriminate.
Defined.

Lemma parse_server_logs_fails_early_witness :
  parse_server_logs (remote_with (log_of [line_old; line_ready])) 1
    server_without_password (tracking 1)
  = tracking 1.
Proof.
  apply (parse_server_logs_fails_early
           (remote_with (log_of [line_old; line_ready])) 1 server_without_password
           (tracking 1)).
  left. reflexivity.
Defined.

Lemma parse_server_logs_nothing_read_witness :
  file_states (parse_server_logs (remote_with EmptyString) 1 sample_server (tracking 1))
  = file_states (tracking 1).
Proof.
  apply (parse_server_logs_nothing_read (remote_with EmptyString) 1 sample_server
           (tracking 1)).
  intros conn content H. vm_compute in H. by injection H as <-.
Defined.

Lemma parse_server_logs_reuses_connection_witness :
  parse_server_logs
    (mkRemote (fun _ _ _ _ => None)
       (sftp_fetch (remote_with (log_of [line_old; line_ready]))))
    1 sample_server tracking_connected
  = parse_server_logs
      (mkRemote (fun _ _ _ _ => Some 9%nat)
         (sftp_fetch (remote_with (log_of [line_old; line_ready]))))
      1 sample_server tracking_connected.
Proof.
  apply (parse_server_logs_reuses_connection
           (remote_with (log_of [line_old; line_ready])) 1 sample_server
           (fun _ _ _ _ => None) (fun _ _ _ _ => Some 9%nat) tracking_connected).
  exists 7%nat. reflexivity.
Defined.

Lemma dispatch_content_offset_witness :
  0 < last_processed_of (scoped_key (pretty 1) "s1")
        (dispatch_content 1 "s1" (log_of [line_old; line_ready]) (new_parser None)).
Proof.
  apply (proj2 (dispatch_content_offset 1 "s1" (log_of [line_old; line_ready])
                  (new_parser None) ltac:(vm_compute; discriminate))).
Defined.

Lemma second_cycle_is_hot_witness :
  let w1 := dispatch_content 1 "s1" (log_of [line_old]) (new_parser None) in
  dispatch_content 1 "s1" (log_of [line_old; line_ready]) w1
  = let '(embeds, w2) :=
      parse_log_content (log_of [line_old; line_ready]) (pretty 1) "s1" w1 in
    match embeds with
    | [] => w2
    | _ => emit_effect (ESendLogEmbeds embeds) w2
    end.
Proof.
  apply (second_cycle_is_hot 1 "s1" (log_of [line_old]) (log_of [line_old; line_ready])
           (new_parser None)).
  - vm_compute. discriminate.
  - vm_compute. discriminate.
Defined.




Lemma reset_by_key_forces_cold_start_witness :
  let server_key := scoped_key (pretty 1) "s1" in
  let w' := reset_file_states (Some server_key) None (tracking 1) in
  file_states w' !! server_key = None
  /\ (forall k, k <> server_key -> file_states w' !! k = file_states (tracking 1) !! k)
  /\ dispatch_content 1 "s1" (log_of [line_old; line_ready]) w'
     = _process_cold_start (log_of [line_old; line_ready]) (pretty 1) "s1" w'.
Proof.
  apply (reset_by_key_forces_cold_start 1 "s1" (log_of [line_old; line_ready]) None
           (tracking 1)).
  vm_compute. discriminate.
Defined.

Lemma reset_by_guild_scope_witness :
  file_states (reset_file_states None (Some 12) two_tenants)
  !! scoped_key (pretty 123) "s1"
  = file_states two_tenants !! scoped_key (pretty 123) "s1".
Proof.
  apply (proj2 (reset_by_guild_scope None 12 123 "s1" two_tenants eq_refl
                  ltac:(lia))).
  lia.
Defined.

Lemma reset_without_scope_clears_all_witness :
  file_states (reset_file_states (Some EmptyString) (Some 0) two_tenants) = ∅.
Proof.
  apply (reset_without_scope_clears_all (Some EmptyString) (Some 0) two_tenants).
  - reflexivity.
  - right. reflexivity.
Defined.


Lemma cleanup_guild_state_removes_own_witness :
  EConnClose (scoped_key (pretty 12) "s1_host_22") 1%nat
  ∈ trace (cleanup_guild_state 12 two_tenants).
Proof.
  apply (proj2 (proj2 (proj2 (proj2 (proj2 (proj2 (proj2
           (cleanup_guild_state_removes_own 12 "s1_host_22" two_tenants)))))))).
  reflexivity.
Defined.

Lemma registration_announces_cached_name_witness :
  exists rest,
    fst (parse_log_content (log_of [line_old; line_registered]) "1" "s1" tracking_named)
    = ConnectionEmbed "Player Connected" "**Alice** has joined the server"
        "Alice" "0002abcdef" 65280 :: rest.
Proof.
  apply (registration_announces_cached_name (log_of [line_old; line_registered])
           "1" "s1" tracking_named 1 line_registered ["0002abcdef"]).
  - reflexivity.
  - vm_compute. lia.
  - vm_compute. reflexivity.
  - vm_compute. reflexivity.
  - vm_compute. reflexivity.
  - vm_compute. reflexivity.
  - vm_compute. reflexivity.
  - vm_compute. reflexivity.
Defined.

Lemma disconnect_name_resolution_witness :
  exists rest,
    fst (parse_log_content (log_of [line_old; line_disconnect]) "1" "s1" tracking_session)
    = ConnectionEmbed "Player Disconnected" "**Alice** has left the server"
        "Alice" "0002abcdef" 16711680 :: rest.
Proof.
  apply (disconnect_name_resolution (log_of [line_old; line_disconnect])
           "1" "s1" tracking_session 1 line_disconnect ["0002abcdef"]).
  - reflexivity.
  - vm_compute. lia.
  - vm_compute. reflexivity.
  - vm_compute. reflexivity.
  - vm_compute. reflexivity.
  - vm_compute. reflexivity.
  - vm_compute. reflexivity.
  - vm_compute. reflexivity.
Defined.

Lemma send_log_embeds_sound_witness :
  exists t ct,
    DictData (Some t) (Some sample_embed)
    ∈ [DictData (Some "mission_event") (Some sample_embed)]
    /\ dict_get channel_mapping t = Some ct
    /\ (ct = "events" \/ ct = "connections")
    /\ get_server_channel sample_guilds 7 "srv1" ct = Some 111
    /\ 111 <> 0
    /\ get_channel sample_discord 111 = true
    /\ send_ok sample_discord 111 sample_embed = true.
Proof.
  apply (send_log_embeds_sound sample_guilds sample_discord 7 "srv1"
           [DictData (Some "mission_event") (Some sample_embed)] 111 sample_embed).
  vm_compute. apply list_elem_of_here.
Defined.

Lemma send_log_embeds_app_witness :
  send_log_embeds sample_guilds sample_discord 7 "srv1"
    ([DictData (Some "mission_event") (Some sample_embed)]
     ++ EmbedObject sample_embed :: [DictData (Some "mission_event") (Some sample_embed)])
  = send_log_embeds sample_guilds sample_discord 7 "srv1"
      [DictData (Some "mission_event") (Some sample_embed)].
Proof.
  apply (proj2 (send_log_embeds_app sample_guilds sample_discord 7 "srv1"
                  [DictData (Some "mission_event") (Some sample_embed)]
                  [DictData (Some "mission_event") (Some sample_embed)]
                  sample_embed eq_refl)).
Defined.

Lemma parse_log_content_records_routed_witness :
  _determine_channel_type (Some (embed_title sample_embed))
  = Some (category_of sample_embed).
Proof.
  apply (parse_log_content_records_routed (log_of [line_old; line_ready]) "1" "s1"
           (tracking 1) sample_embed).
  vm_compute. apply list_elem_of_here.
Defined.

Lemma run_log_parser_tenant_isolation_witness :
  let k := scoped_key (pretty 2) "s1" in
  let w := tracking_db 1 in
  let w' := run_log_parser (remote_with (log_of [line_old; line_ready]))
              sample_guild_docs w in
  file_states w' !! k = file_states w !! k
  /\ player_sessions w' !! k = player_sessions w !! k
  /\ player_lifecycle w' !! k = player_lifecycle w !! k
  /\ sftp_connections w' !! k = sftp_connections w !! k
  /\ server_status w' !! k = server_status w !! k
  /\ last_log_position w' !! k = last_log_position w !! k
  /\ log_file_hashes w' !! k = log_file_hashes w !! k.
Proof.
  apply (run_log_parser_tenant_isolation (remote_with (log_of [line_old; line_ready]))
           2 "s1" sample_guild_docs (tracking_db 1)).
  intros guild_doc Hin. apply list_elem_of_singleton in Hin as ->. simpl. lia.
Defined.


Lemma parse_server_logs_reports_connected_witness :
  let w' := parse_server_logs (remote_with EmptyString) 1 sample_server (tracking 1) in
  gs_sftp_connected (get_guild_server_state 1 (server_id_of sample_server) w') = true
  /\ ps_connection_status (get_parser_status w') = "healthy".
Proof.
  apply (parse_server_logs_reports_connected (remote_with EmptyString) 1 sample_server
           (tracking 1)).
  - reflexivity.
  - right. exists 7%nat. reflexivity.
Defined.
